(** * Python-Automation-Tools: a shallow embedding of the three utilities

    The development follows [src/automation_tools]:
    - [Pathlib]: the few [pathlib] and [str] operations the tools call
      ([suffix], [stem], [lower], [startswith]);
    - [FS]: directory trees, the state every tool reads and writes;
    - [FileOrganizer]: [file_organizer.py];
    - [PDFMerger]: [pdf_merger.py];
    - [ImageResizer]: [image_resizer.py].

    Strings are byte strings. Directory contents are finite maps from entry
    names to nodes; the order in which [iterdir] yields the entries is not
    fixed by the operating system, so it is an explicit argument (a listing)
    of the functions that iterate. Symbolic links are not modelled. *)

From Stdlib Require Import Ascii.
From stdpp Require Import gmap strings list fin_maps pretty.

(** ** pathlib and str *)

Module Pathlib.

(** [str.lower], on the ASCII letters. *)
Definition lower_ascii (c : ascii) : ascii :=
  let n := Ascii.nat_of_ascii c in
  if (65 <=? n) && (n <=? 90) then Ascii.ascii_of_nat (n + 32) else c.

Fixpoint lower (s : string) : string :=
  match s with
  | EmptyString => EmptyString
  | String c s' => String (lower_ascii c) (lower s')
  end.

(** [str.upper], on the ASCII letters. *)
Definition upper_ascii (c : ascii) : ascii :=
  let n := Ascii.nat_of_ascii c in
  if (97 <=? n) && (n <=? 122) then Ascii.ascii_of_nat (n - 32) else c.

Fixpoint upper (s : string) : string :=
  match s with
  | EmptyString => EmptyString
  | String c s' => String (upper_ascii c) (upper s')
  end.

(** A Python string used as a condition is true unless it is empty. *)
Definition truthy (s : string) : bool := negb (String.eqb s "").

(** [s.startswith('.')] *)
Definition startswith_dot (s : string) : bool :=
  match s with
  | String c _ => Ascii.eqb c "."
  | EmptyString => false
  end.

(** [s.rfind('.')]: the index of the last dot, [None] for Python's [-1]. *)
Fixpoint rfind_dot (s : string) : option nat :=
  match s with
  | EmptyString => None
  | String c s' =>
      match rfind_dot s' with
      | Some i => Some (S i)
      | None => if Ascii.eqb c "." then Some 0 else None
      end
  end.

(** [s[:i]] and [s[i:]] *)
Fixpoint take (i : nat) (s : string) : string :=
  match i, s with
  | S i', String c s' => String c (take i' s')
  | _, _ => EmptyString
  end.

Fixpoint drop (i : nat) (s : string) : string :=
  match i, s with
  | S i', String _ s' => drop i' s'
  | _, _ => s
  end.

(** The index at which [PurePath.suffix] and [PurePath.stem] cut a file name:
    [i = name.rfind('.')], used when [0 < i < len(name) - 1]. *)
Definition cut (name : string) : option nat :=
  match rfind_dot name with
  | Some i =>
      if (0 <? i) && (i <? String.length name - 1) then Some i else None
  | None => None
  end.

Definition suffix (name : string) : string :=
  match cut name with
  | Some i => drop i name
  | None => ""
  end.

Definition stem (name : string) : string :=
  match cut name with
  | Some i => take i name
  | None => name
  end.

End Pathlib.

(** ** Exceptions and log records *)

Inductive exn :=
  | FileNotFoundError (msg : string)
  | NotADirectoryError (msg : string)
  | IsADirectoryError (msg : string)
  | FileExistsError (msg : string)
  | PermissionError (msg : string)
  | OSError (msg : string)
  | ValueError (msg : string)
  | PdfReadError (msg : string)
  | UnidentifiedImageError (msg : string).

(** [type(e).__name__] *)
Definition exn_name (e : exn) : string :=
  match e with
  | FileNotFoundError _ => "FileNotFoundError"
  | NotADirectoryError _ => "NotADirectoryError"
  | IsADirectoryError _ => "IsADirectoryError"
  | FileExistsError _ => "FileExistsError"
  | PermissionError _ => "PermissionError"
  | OSError _ => "OSError"
  | ValueError _ => "ValueError"
  | PdfReadError _ => "PdfReadError"
  | UnidentifiedImageError _ => "UnidentifiedImageError"
  end.

(** [str(e)] *)
Definition exn_str (e : exn) : string :=
  match e with
  | FileNotFoundError m | NotADirectoryError m | IsADirectoryError m
  | FileExistsError m | PermissionError m | OSError m | ValueError m
  | PdfReadError m | UnidentifiedImageError m => m
  end.

Inductive level := INFO | WARNING | ERROR.

#[export] Instance level_eq_dec : EqDecision level.
Proof. solve_decision. Defined.

(** One record of the module's [logger]: its level and its message. *)
Definition log_record : Type := level * string.

(** ** Directory trees *)

Module FS.

(** A regular file with its bytes, or a directory with its entries. *)
#[warnings="-register-all"] Inductive node :=
  | File (data : string)
  | Dir (children : gmap string node).

(** A resolved absolute path: its components below the file-system root. *)
Definition path : Type := list string.

(** [str(path)] *)
Fixpoint components_str (p : path) : string :=
  match p with
  | [] => ""
  | x :: p' => "/" +:+ x +:+ components_str p'
  end.

Definition path_str (p : path) : string :=
  match p with
  | [] => "/"
  | _ :: _ => components_str p
  end.

Fixpoint lookup_path (p : path) (n : node) : option node :=
  match p with
  | [] => Some n
  | x :: p' =>
      match n with
      | Dir ch =>
          match ch !! x with
          | Some c => lookup_path p' c
          | None => None
          end
      | File _ => None
      end
  end.

(** [p.name] and [p.parent] *)
Definition name (p : path) : string := List.last p "".
Definition parent (p : path) : path := removelast p.

(** [p.exists()], [p.is_file()], [p.is_dir()] *)
Definition path_exists (p : path) (n : node) : bool :=
  match lookup_path p n with Some _ => true | None => false end.

Definition is_file (p : path) (n : node) : bool :=
  match lookup_path p n with Some (File _) => true | _ => false end.

Definition is_dir (p : path) (n : node) : bool :=
  match lookup_path p n with Some (Dir _) => true | _ => false end.

(** [p.mkdir(parents=True, exist_ok=True)]: the missing directories along [p]
    are created; a regular file on the way makes the call fail and leaves the
    tree as it was. *)
Fixpoint mkdir_parents (p : path) (n : node) : exn + node :=
  match n with
  | File _ =>
      match p with
      | [] => inl (FileExistsError "File exists")
      | _ :: _ => inl (NotADirectoryError "Not a directory")
      end
  | Dir ch =>
      match p with
      | [] => inr n
      | x :: p' =>
          match mkdir_parents p' (default (Dir ∅) (ch !! x)) with
          | inl e => inl e
          | inr c => inr (Dir (<[x := c]> ch))
          end
      end
  end.

(** [open(p, 'wb')] followed by writing [data] and closing: the file is
    created or truncated; the call fails when [p] is a directory or its parent
    is not an existing directory. *)
Fixpoint write_file (p : path) (data : string) (n : node) : exn + node :=
  match p with
  | [] =>
      match n with
      | File _ => inr (File data)
      | Dir _ => inl (IsADirectoryError "Is a directory")
      end
  | x :: p' =>
      match n with
      | File _ => inl (NotADirectoryError "Not a directory")
      | Dir ch =>
          match p', ch !! x with
          | [], None => inr (Dir (<[x := File data]> ch))
          | _ :: _, None =>
              inl (FileNotFoundError "No such file or directory")
          | _, Some c =>
              match write_file p' data c with
              | inl e => inl e
              | inr c' => inr (Dir (<[x := c']> ch))
              end
          end
      end
  end.

End FS.

Export FS (node(..)).

(** What the operating system may refuse, whatever the tree looks like
    (permissions, a full disk, a cross-device move), and how it resolves a path
    string: [Path(s).expanduser().resolve()]. A fault is the exception the call
    raises. *)
Record os_env := {
  resolve : string → FS.path;
  mkdir_fault : FS.path → option exn;
  move_fault : FS.path → FS.path → option exn;
  open_fault : FS.path → option exn;
}.

(** [open(p, 'rb')] and reading the whole file *)
Definition read_file (E : os_env) (p : FS.path) (world : node)
  : exn + string :=
  match open_fault E p with
  | Some e => inl e
  | None =>
      match FS.lookup_path p world with
      | Some (File data) => inr data
      | Some (Dir _) => inl (IsADirectoryError "Is a directory")
      | None => inl (FileNotFoundError "No such file or directory")
      end
  end.

(** ** file_organizer.py *)

Module FileOrganizer.

(** The class attribute [FILE_TYPES], a dict in insertion order. *)
Definition FILE_TYPES : list (string * list string) :=
  [ ("images", [".jpg"; ".jpeg"; ".png"; ".gif"; ".bmp"; ".svg"; ".webp"]);
    ("documents", [".pdf"; ".doc"; ".docx"; ".txt"; ".xlsx"; ".pptx"]);
    ("videos", [".mp4"; ".mov"; ".avi"; ".mkv"; ".wmv"]);
    ("audio", [".mp3"; ".wav"; ".ogg"; ".m4a"]);
    ("archives", [".zip"; ".rar"; ".7z"; ".tar"; ".gz"]);
    ("code", [".py"; ".js"; ".html"; ".css"; ".java"; ".cpp"; ".c"; ".h"]);
    ("executables", [".exe"; ".msi"; ".dmg"; ".pkg"; ".deb"]) ].

(** The keys of the dict [organize] returns. *)
Definition categories : list string := (fst <$> FILE_TYPES) ++ ["other"].

(** An organizer holds the resolved target directory. *)
Record t := { directory : FS.path }.

(** [_validate_directory], on the tree [world] of the whole file system. *)
Definition _validate_directory (world : node) (self : t) : exn + unit :=
  if negb (FS.path_exists (directory self) world) then
    inl (FileNotFoundError
           ("Directory not found: " +:+ FS.path_str (directory self)))
  else if negb (FS.is_dir (directory self) world) then
    inl (NotADirectoryError
           ("Path is not a directory: " +:+ FS.path_str (directory self)))
  else inr ().

(** [FileOrganizer(directory)] *)
Definition __init__ (E : os_env) (world : node) (directory : string)
  : exn + t :=
  let self := {| directory := resolve E directory |} in
  match _validate_directory world self with
  | inl e => inl e
  | inr _ => inr self
  end.

(** [file_path.suffix.lower()]; the suffix of a path is that of its name. *)
Definition _get_extension (name : string) : string :=
  Pathlib.lower (Pathlib.suffix name).

(** The loop of [_get_category] over [FILE_TYPES.items()]. *)
Fixpoint _get_category_in (table : list (string * list string))
  (extension : string) : string :=
  match table with
  | [] => "other"
  | (category, extensions) :: rest =>
      if bool_decide (extension ∈ extensions) then category
      else _get_category_in rest extension
  end.

Definition _get_category (extension : string) : string :=
  _get_category_in FILE_TYPES extension.

(** The state [organize] threads through its loop: the entries of the target
    directory, the dict [moved_files] and the records logged so far. *)
Record state := {
  fs : gmap string node;
  moved_files : gmap string (list string);
  log : list log_record;
}.

Inductive outcome :=
  | Normal (st : state)            (* the statement completed *)
  | Raise (e : exn) (st : state)   (* an exception left the method *)
  | Diverge.                       (* the while loop ran out of fuel *)

(** [moved_files = {category: [] for category in FILE_TYPES.keys()}] followed by
    [moved_files['other'] = []] *)
Definition moved_files_init : gmap string (list string) :=
  <["other" := []]> (list_to_map ((λ kv, (kv.1, [])) <$> FILE_TYPES)).

(** [moved_files[category].append(name)]; every category [_get_category]
    returns is a key of the dict. *)
Definition append_moved (category name : string)
  (m : gmap string (list string)) : gmap string (list string) :=
  alter (λ l, l ++ [name]) category m.

(** [(self.directory / category).exists()] and
    [(self.directory / category / name).exists()] *)
Definition category_dir_exists (root : gmap string node) (category : string)
  : bool :=
  FS.path_exists [category] (Dir root).

Definition dest_exists (root : gmap string node) (category name : string)
  : bool :=
  FS.path_exists [category; name] (Dir root).

(** [category_dir.mkdir(exist_ok=True)] *)
Definition mkdir (E : os_env) (root : gmap string node) (category : string)
  : exn + gmap string node :=
  match mkdir_fault E [category] with
  | Some e => inl e
  | None =>
      match root !! category with
      | None => inr (<[category := Dir ∅]> root)
      | Some (Dir _) => inr root
      | Some (File _) => inl (FileExistsError "File exists")
      end
  end.

(** [shutil.move(str(item), str(dest_path))] with [item = directory / name] and
    [dest_path = directory / category / dest]. A destination that is an
    existing directory receives the source under its own name; an existing
    regular file is replaced. *)
Definition shutil_move (E : os_env) (root : gmap string node)
  (name category dest : string) : exn + gmap string node :=
  match move_fault E [name] [category; dest] with
  | Some e => inl e
  | None =>
      match root !! name with
      | None => inl (FileNotFoundError "No such file or directory")
      | Some src =>
          match root !! category with
          | None => inl (FileNotFoundError "No such file or directory")
          | Some (File _) => inl (NotADirectoryError "Not a directory")
          | Some (Dir ch) =>
              if bool_decide (name = category) then
                inl (OSError "Cannot move a directory into itself")
              else
                match ch !! dest, src with
                | None, _ | Some (File _), File _ =>
                    inr (<[category := Dir (<[dest := src]> ch)]>
                           (delete name root))
                | Some (File _), Dir _ =>
                    inl (NotADirectoryError "Not a directory")
                | Some (Dir sub), _ =>
                    match sub !! name with
                    | Some _ =>
                        inl (OSError "Destination path already exists")
                    | None =>
                        let sub' := <[name := src]> sub in
                        inr (<[category := Dir (<[dest := Dir sub']> ch)]>
                               (delete name root))
                    end
                end
          end
      end
  end.

(** The name the collision loop tries at [counter]:
    [f"{item.stem}_{counter}{item.suffix}"] *)
Definition candidate (name : string) (counter : nat) : string :=
  Pathlib.stem name +:+ "_" +:+ pretty counter +:+ Pathlib.suffix name.

(** [while dest_path.exists() and not dry_run: ...], the loop state being
    [dest] and [counter]; one unit of fuel per evaluation of the condition. *)
Fixpoint collision_loop (fuel : nat) (dry_run : bool)
  (root : gmap string node) (category name dest : string) (counter : nat)
  : option string :=
  match fuel with
  | 0 => None
  | S fuel' =>
      if dest_exists root category dest && negb dry_run then
        collision_loop fuel' dry_run root category name
          (candidate name counter) (S counter)
      else Some dest
  end.

(** Fuel that always suffices: two more than the entries of the category
    directory. *)
Definition collision_fuel (root : gmap string node) (category : string)
  : nat :=
  match root !! category with
  | Some (Dir ch) => S (S (size ch))
  | _ => 2
  end.

Definition add_log (r : log_record) (st : state) : state :=
  {| fs := fs st; moved_files := moved_files st; log := log st ++ [r] |}.

(** [item.is_dir() or item.name.startswith('.')], the test that skips an
    item. *)
Definition skipped (root : gmap string node) (name : string) : bool :=
  FS.is_dir [name] (Dir root) || Pathlib.startswith_dot name.

(** The category of an item, from its name. *)
Definition category_of (name : string) : string :=
  _get_category (_get_extension name).

(** [if not category_dir.exists() and not dry_run: category_dir.mkdir(...)],
    with its log record. An exception of [mkdir] leaves the method. *)
Definition ensure_category_dir (E : os_env) (dry_run : bool) (st : state)
  (category : string) : outcome :=
  if negb (category_dir_exists (fs st) category) && negb dry_run then
    match mkdir E (fs st) category with
    | inl e => Raise e st
    | inr root' =>
        Normal {| fs := root'; moved_files := moved_files st;
                  log := log st ++
                         [(INFO, "Created directory: " +:+ category)] |}
    end
  else Normal st.

(** The [try] block of apply mode: the move, then the bookkeeping; an
    exception of the move is caught and logged. *)
Definition move_item (E : os_env) (st : state) (name category dest : string)
  : state :=
  match shutil_move E (fs st) name category dest with
  | inr root' =>
      {| fs := root';
         moved_files := append_moved category name (moved_files st);
         log := log st ++
                [(INFO, "Moved: " +:+ name +:+ " -> " +:+ category +:+ "/"
                        +:+ dest)] |}
  | inl e =>
      add_log (ERROR, "Error moving " +:+ name +:+ ": " +:+ exn_str e) st
  end.

(** The [else] branch of preview mode. *)
Definition preview_item (st : state) (name category dest : string) : state :=
  {| fs := fs st;
     moved_files := append_moved category name (moved_files st);
     log := log st ++
            [(INFO, "[DRY RUN] Would move: " +:+ name +:+ " -> " +:+
                    category +:+ "/" +:+ dest)] |}.

(** The body of the [for item in self.directory.iterdir()] loop, for the item
    called [name]. *)
Definition process_item (E : os_env) (dry_run : bool) (st : state)
  (name : string) : outcome :=
  if skipped (fs st) name then Normal st
  else
    let extension := _get_extension name in
    let category := _get_category extension in
    match ensure_category_dir E dry_run st category with
    | Normal st1 =>
        match collision_loop (collision_fuel (fs st1) category) dry_run
                (fs st1) category name name 1 with
        | None => Diverge
        | Some dest =>
            if negb dry_run then Normal (move_item E st1 name category dest)
            else Normal (preview_item st1 name category dest)
        end
    | other => other
    end.

(** The [for] loop over the listing [iterdir] returned. *)
Fixpoint organize_loop (E : os_env) (dry_run : bool) (listing : list string)
  (st : state) : outcome :=
  match listing with
  | [] => Normal st
  | name :: rest =>
      match process_item E dry_run st name with
      | Normal st' => organize_loop E dry_run rest st'
      | other => other
      end
  end.

(** [sum(len(files) for files in moved_files.values())] *)
Definition total_moved (m : gmap string (list string)) : nat :=
  sum_list (length <$> (map_to_list m).*2).

(** The first and the last record of a run. *)
Definition opening_record (self : t) (dry_run : bool) : log_record :=
  (INFO, (if dry_run then "[DRY RUN] Would organize files in: "
          else "Organizing files in: ") +:+ FS.path_str (directory self)).

Definition summary_record (dry_run : bool) (total : nat) : log_record :=
  (INFO, if dry_run
         then "[DRY RUN] Would move " +:+ pretty total +:+ " files."
         else "Organization complete. Moved " +:+ pretty total +:+ " files.").

(** The state in which the loop of [organize] starts. *)
Definition initial_state (self : t) (dry_run : bool)
  (root : gmap string node) : state :=
  {| fs := root; moved_files := moved_files_init;
     log := [opening_record self dry_run] |}.

(** [organize(dry_run)] on a target directory whose entries are [root] and
    which [iterdir] lists as [listing]. *)
Definition organize (E : os_env) (self : t) (dry_run : bool)
  (listing : list string) (root : gmap string node) : outcome :=
  match organize_loop E dry_run listing (initial_state self dry_run root) with
  | Normal st =>
      Normal (add_log (summary_record dry_run (total_moved (moved_files st)))
                st)
  | other => other
  end.

(** The record preview mode logs for the item [name]. *)
Definition preview_record (name : string) : log_record :=
  (INFO, "[DRY RUN] Would move: " +:+ name +:+ " -> " +:+ category_of name
         +:+ "/" +:+ name).

(** The file [name] is where it was and no list of the result names it. *)
Definition untouched (name data : string) (st : state) : Prop :=
  fs st !! name = Some (File data) ∧
  ∀ category l, moved_files st !! category = Some l → name ∉ l.

(** [moved_files[category]], and how often it names [name]. *)
Definition recorded (m : gmap string (list string)) (category : string)
  : list string :=
  default [] (m !! category).

Definition occurrences (name : string) (m : gmap string (list string))
  (category : string) : nat :=
  length (filter (λ y, y = name) (recorded m category)).

(** [iterdir] lists exactly the entries of the directory, each once. *)
Definition is_listing (listing : list string) (root : gmap string node)
  : Prop :=
  NoDup listing ∧ ∀ name, name ∈ listing ↔ is_Some (root !! name).

(** [organize_files(directory, dry_run)]: the organizer is built, then run on
    the entries found at the resolved directory. *)
Definition organize_files (E : os_env) (world : node) (directory : string)
  (dry_run : bool) (listing : list string) : exn + outcome :=
  match __init__ E world directory with
  | inl e => inl e
  | inr organizer =>
      match FS.lookup_path (FileOrganizer.directory organizer) world with
      | Some (Dir root) => inr (organize E organizer dry_run listing root)
      | _ => inl (FileNotFoundError "No such file or directory")
      end
  end.

End FileOrganizer.

(** ** pdf_merger.py *)

(** The part of PyPDF2 the tool calls. What the library keeps in a
    [PdfMerger] object is opaque; [PdfReader] gives the exception parsing
    raises, if any. *)
Record pypdf := {
  merger_state : Type;
  PdfMerger_new : merger_state;
  PdfReader : string → option exn;
  PdfMerger_append :
    merger_state → string → option string → exn + merger_state;
  PdfMerger_write : merger_state → exn + string;
  PdfMerger_close : merger_state → merger_state;
}.

Module PDFMerger.

Record t (L : pypdf) := {
  output_path : FS.path;
  merger : merger_state L;
}.
Arguments output_path {L} _.
Arguments merger {L} _.

(** What a method leaves behind: the value it returns or the exception it
    raises, the object, the file system and the records it logged. *)
Record result (L : pypdf) (A : Type) := {
  ret : exn + A;
  self' : t L;
  world' : node;
  log : list log_record;
}.
Arguments ret {L A} _.
Arguments self' {L A} _.
Arguments world' {L A} _.
Arguments log {L A} _.

Definition __init__ (E : os_env) (L : pypdf) (output_path : string) : t L :=
  {| output_path := resolve E output_path; merger := PdfMerger_new L |}.

(** [add_file(file_path, bookmark)] *)
Definition add_file (E : os_env) (L : pypdf) (self : t L) (world : node)
  (file_path : string) (bookmark : option string) : result L unit :=
  let file_path := resolve E file_path in
  if negb (FS.path_exists file_path world) then
    {| ret := inl (FileNotFoundError
                     ("File not found: " +:+ FS.path_str file_path));
       self' := self; world' := world; log := [] |}
  else
    let failed (e : exn) :=
      {| ret := inl e; self' := self; world' := world;
         log := [(ERROR, "Error processing " +:+ FS.name file_path +:+ ": "
                         +:+ exn_str e)] |} in
    match read_file E file_path world with
    | inl e => failed e
    | inr data =>
        match PdfReader L data with
        | Some e => failed e
        | None =>
            let bookmark :=
              match bookmark with
              | Some b => if Pathlib.truthy b then Some b else None
              | None => None
              end in
            match PdfMerger_append L (merger self) data bookmark with
            | inl e => failed e
            | inr m =>
                {| ret := inr ();
                   self' := {| output_path := output_path self;
                               merger := m |};
                   world' := world;
                   log := [(INFO, "Added: " +:+ FS.name file_path +:+ " " +:+
                                  match bookmark with
                                  | Some b => "(Bookmarked as: " +:+ b +:+ ")"
                                  | None => ""
                                  end)] |}
            end
        end
    end.

(** [_delete_original_files()]: it logs a warning and nothing else. *)
Definition _delete_original_files (L : pypdf) (self : t L)
  : list log_record :=
  [(WARNING, "Deleting original files is not implemented in this example")].

(** [merge(output_path, delete_originals)]. The [finally] clause closes the
    merger on every way out of the [try]; creating the parent directory comes
    before the [try]. *)
Definition merge (E : os_env) (L : pypdf) (self : t L) (world : node)
  (output_path : option string) (delete_originals : bool)
  : result L string :=
  let self1 :=
    match output_path with
    | Some s =>
        if Pathlib.truthy s
        then {| output_path := resolve E s; merger := merger self |}
        else self
    | None => self
    end in
  let out := PDFMerger.output_path self1 in
  let made :=
    match mkdir_fault E (FS.parent out) with
    | Some e => inl e
    | None => FS.mkdir_parents (FS.parent out) world
    end in
  match made with
  | inl e => {| ret := inl e; self' := self1; world' := world; log := [] |}
  | inr world1 =>
      let closed :=
        {| output_path := out;
           merger := PdfMerger_close L (merger self1) |} in
      let failed (e : exn) (w : node) :=
        {| ret := inl e; self' := closed; world' := w;
           log := [(ERROR, "Error merging PDFs: " +:+ exn_str e)] |} in
      let opened :=
        match open_fault E out with
        | Some e => inl e
        | None => FS.write_file out "" world1
        end in
      match opened with
      | inl e => failed e world1
      | inr world2 =>
          match PdfMerger_write L (merger self1) with
          | inl e => failed e world2
          | inr data =>
              match FS.write_file out data world2 with
              | inl e => failed e world2
              | inr world3 =>
                  {| ret := inr (FS.path_str out);
                     self' := closed;
                     world' := world3;
                     log := (INFO, "Successfully created merged PDF: " +:+
                                   FS.path_str out)
                            :: (if delete_originals
                                then _delete_original_files L self1
                                else []) |}
              end
          end
      end
  end.

End PDFMerger.

(** ** image_resizer.py *)

(** The part of Pillow the tool calls, and the float arithmetic of the size
    computation. An image and a float are opaque; [Image_open] decodes the
    bytes of a file, [Image_save] encodes an image in a format with the
    keyword arguments given. *)
Record pillow := {
  Image : Type;
  float : Type;
  Image_open : string → exn + Image;
  Image_mode : Image → string;
  Image_convert : Image → string → Image;
  Image_size : Image → Z * Z;
  Image_format : Image → option string;
  Image_resize : Image → Z * Z → exn + Image;
  Image_save : Image → string → list (string * Z) → exn + string;
  (* [a / b] on ints, [a * x] and [int(x)], [bool(x)] *)
  int_truediv : Z → Z → exn + float;
  int_mul_float : Z → float → float;
  int_of_float : float → exn + Z;
  float_truthy : float → bool;
}.

Module ImageResizer.

Record t := {
  output_dir : option string;
  output_format : option string;
  quality : Z;
}.

Record result := {
  ret : exn + FS.path;
  world' : node;
  log : list log_record;
}.

(** [ImageResizer(output_dir, output_format)] *)
Definition __init__ (output_dir output_format : option string) : t :=
  {| output_dir :=
       match output_dir with
       | Some d => if Pathlib.truthy d then Some d else None
       | None => None
       end;
     output_format :=
       match output_format with
       | Some f => if Pathlib.truthy f then Some (Pathlib.upper f) else None
       | None => None
       end;
     quality := 85 |}.

(** The directory [_validate_output_dir] computes, before it creates it. *)
Definition output_dir_of (E : os_env) (self : t) (input_path : FS.path)
  : FS.path :=
  match output_dir self with
  | Some d => resolve E d
  | None => FS.parent input_path ++ ["resized"]
  end.

Definition _validate_output_dir (E : os_env) (self : t) (world : node)
  (input_path : FS.path) : exn + (FS.path * node) :=
  let output_dir := output_dir_of E self input_path in
  match mkdir_fault E output_dir with
  | Some e => inl e
  | None =>
      match FS.mkdir_parents output_dir world with
      | inl e => inl e
      | inr world1 => inr (output_dir, world1)
      end
  end.

Definition _get_output_path (self : t) (input_path output_dir : FS.path)
  : FS.path :=
  let ext :=
    match output_format self with
    | Some f => if Pathlib.truthy f then "." +:+ Pathlib.lower f
                else Pathlib.lower (Pathlib.suffix (FS.name input_path))
    | None => Pathlib.lower (Pathlib.suffix (FS.name input_path))
    end in
  let output_filename :=
    Pathlib.stem (FS.name input_path) +:+ "_resized" +:+ ext in
  output_dir ++ [output_filename].

(** An optional int used as a condition: set and not zero. *)
Definition int_truthy (x : option Z) : bool :=
  match x with Some v => negb (v =? 0)%Z | None => false end.

(** The chain [if size: ... elif width and height: ... else: raise]. *)
Definition new_size (L : pillow) (img : Image L) (size : option (Z * Z))
  (width height : option Z) (scale : option (float L)) : exn + Z * Z :=
  let '(img_width, img_height) := Image_size L img in
  match size with
  | Some sz => inr sz
  | None =>
      if int_truthy width && int_truthy height then
        inr (default 0%Z width, default 0%Z height)
      else if int_truthy width then
        let w := default 0%Z width in
        match int_truediv L w img_width with
        | inl e => inl e
        | inr ratio =>
            match int_of_float L (int_mul_float L img_height ratio) with
            | inl e => inl e
            | inr h => inr (w, h)
            end
        end
      else if int_truthy height then
        let h := default 0%Z height in
        match int_truediv L h img_height with
        | inl e => inl e
        | inr ratio =>
            match int_of_float L (int_mul_float L img_width ratio) with
            | inl e => inl e
            | inr w => inr (w, h)
            end
        end
      else
        match scale with
        | Some s =>
            if float_truthy L s then
              match int_of_float L (int_mul_float L img_width s) with
              | inl e => inl e
              | inr w =>
                  match int_of_float L (int_mul_float L img_height s) with
                  | inl e => inl e
                  | inr h => inr (w, h)
                  end
              end
            else inl (ValueError
                        "No valid size, width, height, or scale provided")
        | None => inl (ValueError
                         "No valid size, width, height, or scale provided")
        end
  end.

(** [a or b] on optional strings, with the default [c] last. *)
Definition str_or (a : option string) (c : string) : string :=
  match a with
  | Some s => if Pathlib.truthy s then s else c
  | None => c
  end.

(** [str((w, h))] *)
Definition tuple_str (sz : Z * Z) : string :=
  "(" +:+ pretty sz.1 +:+ ", " +:+ pretty sz.2 +:+ ")".

(** [resized_img.save(output_path, format=..., **save_kwargs)]: Pillow opens
    the file for writing, then encodes; when encoding fails, a file the call
    created is removed again and one that was there stays truncated. *)
Definition save (E : os_env) (L : pillow) (img : Image L) (out : FS.path)
  (format : string) (save_kwargs : list (string * Z)) (world : node)
  : exn * node + node :=
  let opened :=
    match open_fault E out with
    | Some e => inl e
    | None => FS.write_file out "" world
    end in
  match opened with
  | inl e => inl (e, world)
  | inr world1 =>
      match Image_save L img format save_kwargs with
      | inl e =>
          inl (e, if FS.path_exists out world then world1 else world)
      | inr data =>
          match FS.write_file out data world1 with
          | inl e => inl (e, world1)
          | inr world2 => inr world2
          end
      end
  end.

(** [resize_image(input_path, size, width, height, scale,
    maintain_aspect_ratio, quality)] *)
Definition resize_image (E : os_env) (L : pillow) (self : t) (world : node)
  (input_path : string) (size : option (Z * Z)) (width height : option Z)
  (scale : option (float L)) (maintain_aspect_ratio : bool)
  (quality : option Z) : result :=
  let input_path := resolve E input_path in
  if negb (FS.path_exists input_path world) then
    {| ret := inl (FileNotFoundError
                     ("Input file not found: " +:+ FS.path_str input_path));
       world' := world; log := [] |}
  else
    match _validate_output_dir E self world input_path with
    | inl e => {| ret := inl e; world' := world; log := [] |}
    | inr (output_dir, world1) =>
        let output_path := _get_output_path self input_path output_dir in
        let failed (e : exn) (w : node) :=
          {| ret := inl e; world' := w;
             log := [(ERROR, "Error processing " +:+ FS.name input_path +:+
                             ": " +:+ exn_str e)] |} in
        match read_file E input_path world1 with
        | inl e => failed e world1
        | inr data =>
            match Image_open L data with
            | inl e => failed e world1
            | inr img =>
                let img :=
                  if bool_decide (Image_mode L img ∈ ["RGBA"; "P"])
                  then Image_convert L img "RGB" else img in
                let original_size := Image_size L img in
                match new_size L img size width height scale with
                | inl e => failed e world1
                | inr new_size =>
                    match Image_resize L img new_size with
                    | inl e => failed e world1
                    | inr resized_img =>
                        let output_format :=
                          str_or (output_format self)
                            (str_or (Image_format L img) "JPEG") in
                        let save_kwargs :=
                          if bool_decide (output_format ∈ ["JPEG"; "WEBP"])
                          then [("quality",
                                 if int_truthy quality
                                 then default 0%Z quality
                                 else ImageResizer.quality self)]
                          else if bool_decide (output_format = "PNG")
                          then [("compress_level", 6%Z)]
                          else [] in
                        match save E L resized_img output_path output_format
                                save_kwargs world1 with
                        | inl (e, w) => failed e w
                        | inr world2 =>
                            {| ret := inr output_path;
                               world' := world2;
                               log :=
                                 [(INFO, "Resized " +:+ FS.name input_path
                                         +:+ " from " +:+
                                         tuple_str original_size +:+ " to "
                                         +:+ tuple_str new_size +:+
                                         " and saved as " +:+
                                         FS.path_str output_path)] |}
                        end
                    end
                end
            end
        end
    end.

End ImageResizer.

(** ** Sample runs

    A system without faults whose [resolve] takes a path relative to the
    file-system root and cuts it at each slash, one that refuses to move a
    given item, and small directory trees. *)

Module Sample.

Fixpoint split_slash (cur : string) (s : string) : list string :=
  match s with
  | EmptyString => if Pathlib.truthy cur then [String.rev cur] else []
  | String c s' =>
      if Ascii.eqb c "/"
      then (if Pathlib.truthy cur then [String.rev cur] else [])
           ++ split_slash "" s'
      else split_slash (String c cur) s'
  end.

Definition posix : os_env :=
  {| resolve := split_slash "";
     mkdir_fault := λ _, None;
     move_fault := λ _ _, None;
     open_fault := λ _, None |}.

(** The move of the item [name] is refused with [e], wherever it goes. *)
Definition refusing (name : string) (e : exn) : os_env :=
  {| resolve := split_slash "";
     mkdir_fault := λ _, None;
     move_fault :=
       λ src _, if bool_decide (src = [name]) then Some e else None;
     open_fault := λ _, None |}.

Definition organizer : FileOrganizer.t :=
  {| FileOrganizer.directory := ["home"; "user"; "inbox"] |}.


(** Two files and a directory that is no category directory. *)
Definition mixed : gmap string node :=
  <["a.jpg" := File "A"]>
    (<["notes.txt" := File "N"]> (<["projects" := Dir ∅]> ∅)).

(** Seven files, one of them without extension. *)
Definition seven : gmap string node :=
  list_to_map
    [("a.jpg", File "1"); ("b.JPG", File "2"); ("report.pdf", File "3");
     ("notes.txt", File "4"); ("archive.zip", File "5");
     ("script.py", File "6"); ("README", File "7")].


(** A file system with the target directory [/home/user/inbox] and a regular
    file [/home/user/todo.txt]. *)
Definition world : node :=
  Dir (<["home" :=
           Dir (<["user" :=
                    Dir (<["inbox" := Dir mixed]>
                           (<["todo.txt" := File "T"]> ∅))]> ∅)]> ∅).

(** A stand-in for PyPDF2: every file parses, a merger keeps the bytes it was
    given and writes them one after the other. *)
Definition concat_pdf : pypdf :=
  {| merger_state := list string;
     PdfMerger_new := [];
     PdfReader := λ _, None;
     PdfMerger_append := λ m data _, inr (m ++ [data]);
     PdfMerger_write := λ m, inr (String.concat "" m);
     PdfMerger_close := λ _, [] |}.

(** A file system with [/docs/a.pdf] and [/docs/b.pdf]. *)
Definition docs : node :=
  Dir (<["docs" := Dir (<["a.pdf" := File "A"]>
                          (<["b.pdf" := File "B"]> ∅))]> ∅).

(** The merger after [add_file] of both. *)
Definition both_added : PDFMerger.t concat_pdf :=
  let m0 := PDFMerger.__init__ posix concat_pdf "/out/all.pdf" in
  let r1 := PDFMerger.add_file posix concat_pdf m0 docs "/docs/a.pdf" None in
  let r2 := PDFMerger.add_file posix concat_pdf (PDFMerger.self' r1) docs
              "/docs/b.pdf" None in
  PDFMerger.self' r2.

(** A stand-in for Pillow: an image is the bytes of its file, four pixels by
    two, in PNG; resizing and encoding give the bytes back; floats are
    integers. *)
Definition plain_pillow : pillow :=
  {| Image := string;
     float := Z;
     Image_open := λ data, inr data;
     Image_mode := λ _, "RGB";
     Image_convert := λ img _, img;
     Image_size := λ _, (4, 2)%Z;
     Image_format := λ _, Some "PNG";
     Image_resize := λ img _, inr img;
     Image_save := λ img _ _, inr img;
     int_truediv := λ a b, inr (a `div` b)%Z;
     int_mul_float := Z.mul;
     int_of_float := inr;
     float_truthy := λ x, negb (x =? 0)%Z |}.

(** A file system with [/pics/cat.png]. *)
Definition pics : node :=
  Dir (<["pics" := Dir (<["cat.png" := File "CAT"]> ∅)]> ∅).

End Sample.

(** * Properties *)

(** ** Strings and file names *)

Section strings.

Lemma string_app_cons (c : ascii) (s t : string) :
  String c s +:+ t = String c (s +:+ t).
Proof. reflexivity. Qed.

Lemma string_app_nil_r (s : string) : s +:+ "" = s.
Proof.
  induction s as [|c s IH]; [reflexivity|].
  rewrite string_app_cons. by rewrite IH.
Qed.

Lemma string_length_app (s t : string) :
  String.length (s +:+ t) = String.length s + String.length t.
Proof.
  induction s as [|c s IH]; [reflexivity|].
  rewrite string_app_cons. simpl. by rewrite IH.
Qed.

Lemma string_app_inv_tail (s1 s2 t : string) :
  s1 +:+ t = s2 +:+ t → s1 = s2.
Proof.
  revert s2. induction s1 as [|c1 s1 IH]; intros [|c2 s2] Heq; [done|..].
  - apply (f_equal String.length) in Heq.
    rewrite !string_length_app in Heq. simpl in Heq. lia.
  - apply (f_equal String.length) in Heq.
    rewrite !string_length_app in Heq. simpl in Heq. lia.
  - rewrite !string_app_cons in Heq. injection Heq as -> Heq.
    f_equal. by apply IH.
Qed.

Lemma take_drop (i : nat) (s : string) :
  Pathlib.take i s +:+ Pathlib.drop i s = s.
Proof.
  revert i. induction s as [|c s IH]; intros [|i]; try reflexivity.
  simpl. rewrite string_app_cons. by rewrite IH.
Qed.

(** A file name is its stem followed by its suffix. *)
Lemma stem_suffix (name : string) :
  Pathlib.stem name +:+ Pathlib.suffix name = name.
Proof.
  unfold Pathlib.stem, Pathlib.suffix.
  destruct (Pathlib.cut name) as [i|]; [apply take_drop|].
  apply string_app_nil_r.
Qed.

Lemma rfind_dot_drop (s : string) (i : nat) :
  Pathlib.rfind_dot s = Some i → ∃ r, Pathlib.drop i s = String "." r.
Proof.
  revert i. induction s as [|c s IH]; intros i; simpl; [done|].
  destruct (Pathlib.rfind_dot s) as [j|] eqn:Hj.
  - intros [= <-]. simpl. by apply IH.
  - destruct (Ascii.eqb_spec c ".") as [->|]; [|done].
    intros [= <-]. by exists s.
Qed.

(** A suffix is empty or begins with a dot. *)
Lemma suffix_dot (name : string) :
  Pathlib.suffix name = "" ∨ ∃ r, Pathlib.suffix name = String "." r.
Proof.
  unfold Pathlib.suffix, Pathlib.cut.
  destruct (Pathlib.rfind_dot name) as [i|] eqn:Hi; [|by left].
  destruct (_ && _); [|by left].
  right. by apply rfind_dot_drop.
Qed.

(** The names the collision loop tries are pairwise different. *)
Lemma candidate_inj (name : string) : Inj (=) (=) (FileOrganizer.candidate name).
Proof.
  intros k1 k2 Heq. unfold FileOrganizer.candidate in Heq.
  apply (inj (String.app _)) in Heq.
  apply (inj (String.app _)) in Heq.
  apply string_app_inv_tail in Heq.
  by apply (inj pretty) in Heq.
Qed.


End strings.

(** ** The organizer: classification *)

Section classification.

Import FileOrganizer.

Lemma _get_category_in_other table extension :
  (∀ category extensions,
     (category, extensions) ∈ table → extension ∉ extensions) →
  _get_category_in table extension = "other".
Proof.
  induction table as [|[c exts] table IH]; intros Habs; [reflexivity|].
  simpl. rewrite bool_decide_eq_false_2.
  - apply IH. intros c' exts' Hin. apply (Habs c' exts').
    by apply list_elem_of_further.
  - apply (Habs c exts). by apply list_elem_of_here.
Qed.

(** Every category the classification returns is a key of [moved_files]. *)
Lemma _get_category_key extension :
  is_Some (moved_files_init !! _get_category extension).
Proof.
  unfold _get_category, FILE_TYPES, _get_category_in.
  repeat (case_bool_decide; [by vm_compute; eauto|]).
  by vm_compute; eauto.
Qed.

(** C1: an extension found in the table [FILE_TYPES] is classified as the
    category whose list holds it, and an extension no list holds, the empty
    string of a name without extension among them, is classified as
    ["other"]. *)
Theorem C1_get_category (extension : string) :
  (∀ category extensions,
     (category, extensions) ∈ FILE_TYPES → extension ∈ extensions →
     _get_category extension = category) ∧
  ((∀ category extensions,
      (category, extensions) ∈ FILE_TYPES → extension ∉ extensions) →
   _get_category extension = "other") ∧
  _get_category "" = "other".
Proof.
  split; [|split].
  - intros category extensions Hc He.
    unfold FILE_TYPES in Hc.
    repeat (apply elem_of_cons in Hc as [[= -> ->]|Hc];
            [repeat (apply elem_of_cons in He as [->|He]; [reflexivity|]);
             by apply elem_of_nil in He|]).
    by apply elem_of_nil in Hc.
  - apply _get_category_in_other.
  - reflexivity.
Qed.

(** For C1: [".jpg"], an extension of the table, and [".xyz"], one that is
    not. *)
Lemma C1_get_category_witness :
  _get_category ".jpg" = "images" ∧ _get_category ".xyz" = "other".
Proof.
  split.
  - apply (proj1 (C1_get_category ".jpg") "images"
             [".jpg"; ".jpeg"; ".png"; ".gif"; ".bmp"; ".svg"; ".webp"]).
    + by apply list_elem_of_here.
    + by apply list_elem_of_here.
  - apply (proj1 (proj2 (C1_get_category ".xyz"))).
    intros category extensions Hc He. unfold FILE_TYPES in Hc.
    repeat (apply elem_of_cons in Hc as [[= -> ->]|Hc];
            [repeat (apply elem_of_cons in He as [[=]|He]);
             by apply elem_of_nil in He|]).
    by apply elem_of_nil in Hc.
Defined.

End classification.

(** ** The organizer: looking at the target directory *)

Section lookups.

Import FileOrganizer.

Implicit Types (root : gmap string node) (name category dest : string).

Lemma is_dir_entry root name :
  FS.is_dir [name] (Dir root) = true ↔ ∃ ch, root !! name = Some (Dir ch).
Proof.
  unfold FS.is_dir. simpl. destruct (root !! name) as [[d|ch]|]; simpl.
  - split; [done|]. by intros [? [=]].
  - split; [by eexists|done].
  - split; [done|]. by intros [? [=]].
Qed.

Lemma is_dir_file root name data :
  root !! name = Some (File data) → FS.is_dir [name] (Dir root) = false.
Proof. intros H. unfold FS.is_dir. simpl. by rewrite H. Qed.

Lemma category_dir_exists_spec root category :
  category_dir_exists root category = true ↔ is_Some (root !! category).
Proof.
  unfold category_dir_exists, FS.path_exists. simpl.
  destruct (root !! category); simpl.
  - split; [by eauto|done].
  - split; [done|]. by intros [? [=]].
Qed.

Lemma dest_exists_spec root category dest :
  dest_exists root category dest = true ↔
  ∃ ch, root !! category = Some (Dir ch) ∧ is_Some (ch !! dest).
Proof.
  unfold dest_exists, FS.path_exists. simpl.
  destruct (root !! category) as [[d|ch]|]; simpl.
  - split; [done|]. by intros (? & [=] & _).
  - destruct (ch !! dest) eqn:Hd; simpl.
    + split; [|done]. intros _. exists ch. by rewrite Hd.
    + split; [done|]. intros (ch' & [= <-] & Hs). rewrite Hd in Hs.
      by destruct Hs.
  - split; [done|]. by intros (? & [=] & _).
Qed.

Lemma dest_exists_dir root category ch dest :
  root !! category = Some (Dir ch) →
  dest_exists root category dest = bool_decide (is_Some (ch !! dest)).
Proof.
  intros H. unfold dest_exists, FS.path_exists. simpl. rewrite H.
  by destruct (ch !! dest).
Qed.

End lookups.

(** ** The organizer: the collision loop *)

Section collision.

Import FileOrganizer.

Implicit Types (root : gmap string node) (name category dest : string).

(** In preview mode the loop condition is false at once. *)
Lemma collision_loop_dry_run fuel root category name dest counter :
  collision_loop (S fuel) true root category name dest counter = Some dest.
Proof. simpl. by rewrite andb_false_r. Qed.

(** What the loop returns, and what running out of fuel would mean. *)
Lemma collision_loop_spec fuel root category name dest counter :
  match collision_loop fuel false root category name dest counter with
  | Some d =>
      dest_exists root category d = false ∧
      ((d = dest) ∨
       ∃ k, counter ≤ k ∧ d = candidate name k ∧
            dest_exists root category dest = true ∧
            ∀ j, counter ≤ j < k →
                 dest_exists root category (candidate name j) = true)
  | None =>
      (fuel = 0 ∨ dest_exists root category dest = true) ∧
      ∀ j, counter ≤ j < counter + fuel - 1 →
           dest_exists root category (candidate name j) = true
  end.
Proof.
  revert dest counter. induction fuel as [|fuel IH]; intros dest counter.
  { simpl. split; [by left|]. intros j Hj. lia. }
  simpl. rewrite andb_true_r.
  destruct (dest_exists root category dest) eqn:Hdest; [|by auto].
  specialize (IH (candidate name counter) (S counter)).
  destruct (collision_loop fuel false root category name
              (candidate name counter) (S counter)) as [d|].
  - destruct IH as [Hfree [->|(k & Hk & -> & Hc & Hbelow)]].
    + split; [done|]. right. exists counter. repeat split; [lia|].
      intros j Hj. lia.
    + split; [done|]. right. exists k. repeat split; [lia|].
      intros j Hj. destruct (decide (j = counter)) as [->|]; [done|].
      apply Hbelow. lia.
  - destruct IH as [Hfirst Hrest]. split; [by right|].
    intros j Hj. destruct (decide (j = counter)) as [->|].
    + destruct Hfirst as [->|]; [lia|done].
    + apply Hrest. lia.
Qed.

(** A directory cannot hold one more candidate name than it has entries. *)
Lemma candidates_pigeonhole (ch : gmap string node) name :
  ¬ ∀ j, 1 ≤ j < S (S (size ch)) → is_Some (ch !! candidate name j).
Proof.
  intros Hall.
  set (l := candidate name <$> seq 1 (S (size ch))).
  assert (NoDup l) as Hnd.
  { apply (@NoDup_fmap_2 _ _ (candidate name) (candidate_inj name)),
      NoDup_seq. }
  assert (list_to_set l ⊆ dom ch) as Hsub.
  { intros x. rewrite elem_of_list_to_set, elem_of_dom.
    intros (j & -> & Hj)%list_elem_of_fmap.
    apply elem_of_seq in Hj. apply Hall. lia. }
  apply subseteq_size in Hsub.
  rewrite size_list_to_set in Hsub by done.
  rewrite size_dom in Hsub. unfold l in Hsub.
  rewrite length_fmap, length_seq in Hsub. lia.
Qed.

(** The loop ends within its fuel, on a name that is free at the destination:
    the file's own name, or the first free candidate when that name is
    taken. *)
Lemma collision_loop_terminates root category name :
  ∃ dest,
    collision_loop (collision_fuel root category) false root category name
      name 1 = Some dest ∧
    dest_exists root category dest = false ∧
    ((dest = name) ∨
     ∃ k, 1 ≤ k ∧ dest = candidate name k ∧
          dest_exists root category name = true ∧
          ∀ j, 1 ≤ j < k →
               dest_exists root category (candidate name j) = true).
Proof.
  pose proof (collision_loop_spec (collision_fuel root category) root
                category name name 1) as Hspec.
  destruct (collision_loop _ _ _ _ _ _ _) as [d|]; [by exists d|].
  exfalso. destruct Hspec as [Hfirst Hall].
  unfold collision_fuel in *.
  destruct (root !! category) as [[data|ch]|] eqn:Hcat.
  - destruct Hfirst as [|Hex]; [done|].
    apply dest_exists_spec in Hex as (? & Hex & _). congruence.
  - apply (candidates_pigeonhole ch name). intros j Hj.
    assert (1 ≤ j < 1 + S (S (size ch)) - 1) as Hj' by lia.
    apply Hall in Hj'. rewrite (dest_exists_dir _ _ ch) in Hj' by done.
    by apply bool_decide_eq_true in Hj'.
  - destruct Hfirst as [|Hex]; [done|].
    apply dest_exists_spec in Hex as (? & Hex & _). congruence.
Qed.

End collision.

(** ** The organizer: one item *)

Section steps.

Import FileOrganizer.

Context (E : os_env).

Implicit Types (root : gmap string node) (name category dest : string).
Implicit Types (st : state).

Lemma process_item_skipped dry_run st name :
  skipped (fs st) name = true → process_item E dry_run st name = Normal st.
Proof. intros H. unfold process_item. by rewrite H. Qed.

(** Preview mode: no directory is made, the loop does not run, and the item is
    reported under its own name. *)
Lemma process_item_dry_run st name :
  process_item E true st name =
  Normal (if skipped (fs st) name then st
          else preview_item st name (category_of name) name).
Proof.
  unfold process_item. destruct (skipped (fs st) name); [done|].
  unfold ensure_category_dir. rewrite andb_false_r.
  unfold collision_fuel.
  by destruct (fs st !! _) as [[?|?]|]; rewrite collision_loop_dry_run.
Qed.

(** Apply mode: the category directory after [ensure_category_dir]. *)
Lemma ensure_category_dir_apply st category :
  match ensure_category_dir E false st category with
  | Normal st1 =>
      is_Some (fs st1 !! category) ∧ moved_files st1 = moved_files st ∧
      (st1 = st ∨
       (fs st !! category = None ∧ mkdir_fault E [category] = None ∧
        st1 = {| fs := <[category := Dir ∅]> (fs st);
                 moved_files := moved_files st;
                 log := log st ++
                        [(INFO, "Created directory: " +:+ category)] |}))
  | Raise e st1 =>
      st1 = st ∧ fs st !! category = None ∧
      mkdir_fault E [category] = Some e
  | Diverge => False
  end.
Proof.
  unfold ensure_category_dir. rewrite andb_true_r.
  destruct (category_dir_exists (fs st) category) eqn:Hex; simpl.
  - apply category_dir_exists_spec in Hex. auto.
  - assert (fs st !! category = None) as Hnone.
    { apply eq_None_not_Some. intros Hs.
      apply category_dir_exists_spec in Hs. congruence. }
    unfold mkdir. rewrite Hnone.
    destruct (mkdir_fault E [category]) as [e|] eqn:Hf; [done|].
    simpl. rewrite lookup_insert_eq. split; [by eexists|]. split; [done|].
    right. done.
Qed.

(** Apply mode, an item that is not skipped: unless [mkdir] raises, a free
    destination name is found and the move is attempted. *)
Lemma process_item_apply st name :
  skipped (fs st) name = false →
  match ensure_category_dir E false st (category_of name) with
  | Normal st1 =>
      ∃ dest,
        dest_exists (fs st1) (category_of name) dest = false ∧
        ((dest = name) ∨
         ∃ k, 1 ≤ k ∧ dest = candidate name k ∧
              dest_exists (fs st1) (category_of name) name = true ∧
              ∀ j, 1 ≤ j < k →
                   dest_exists (fs st1) (category_of name)
                     (candidate name j) = true) ∧
        process_item E false st name =
        Normal (move_item E st1 name (category_of name) dest)
  | other => process_item E false st name = other
  end.
Proof.
  intros Hskip. unfold process_item. rewrite Hskip.
  fold (category_of name).
  destruct (ensure_category_dir E false st (category_of name)) as [st1|e st1|];
    [|done..].
  destruct (collision_loop_terminates (fs st1) (category_of name) name)
    as (dest & -> & Hfree & Hdest).
  by exists dest.
Qed.

(** A move that succeeds takes the item out of the target directory and
    changes one other entry, the category directory. *)
Lemma shutil_move_inr root name category dest root' :
  shutil_move E root name category dest = inr root' →
  ∃ ch ch', root !! category = Some (Dir ch) ∧ name ≠ category ∧
            root' = <[category := Dir ch']> (delete name root).
Proof.
  unfold shutil_move.
  destruct (move_fault E _ _); [done|].
  destruct (root !! name) as [src|]; [|done].
  destruct (root !! category) as [[d|ch]|]; [done| |done].
  case_bool_decide as Hne; [done|].
  destruct (ch !! dest) as [[d|sub]|], src as [data|srcch]; try done;
    try (destruct (sub !! name); [done|]);
    intros [= <-]; eauto.
Qed.


(** The records only grow. *)
Lemma move_item_log st name category dest :
  ∃ r, log (move_item E st name category dest) = log st ++ [r] ∧
       (r.1 = ERROR ↔
        ∃ e, shutil_move E (fs st) name category dest = inl e).
Proof.
  unfold move_item.
  destruct (shutil_move E (fs st) name category dest) as [e|root'];
    eexists; (split; [reflexivity|]); simpl.
  - split; [by eauto|done].
  - split; [done|]. by intros [? [=]].
Qed.

Lemma process_item_log st name st' :
  process_item E false st name = Normal st' →
  ∃ rs, log st' = log st ++ rs.
Proof.
  destruct (skipped (fs st) name) eqn:Hskip.
  { rewrite process_item_skipped by done. intros [= <-]. exists [].
    by rewrite app_nil_r. }
  pose proof (process_item_apply st name Hskip) as Hstep.
  pose proof (ensure_category_dir_apply st (category_of name)) as Hdir.
  destruct (ensure_category_dir E false st (category_of name))
    as [st1|e st1|]; [|by rewrite Hstep..].
  destruct Hstep as (dest & _ & _ & ->). intros [= <-].
  destruct (move_item_log st1 name (category_of name) dest) as (r & -> & _).
  destruct Hdir as (_ & _ & [->|(_ & _ & ->)]); simpl.
  - by eexists.
  - rewrite <- app_assoc. by eexists.
Qed.

Lemma organize_loop_log listing st st' :
  organize_loop E false listing st = Normal st' →
  ∃ rs, log st' = log st ++ rs.
Proof.
  revert st. induction listing as [|name rest IH]; intros st; simpl.
  { intros [= <-]. exists []. by rewrite app_nil_r. }
  destruct (process_item E false st name) as [st1|e st1|] eqn:Hstep;
    [|done..].
  intros (rs2 & ->)%IH. apply process_item_log in Hstep as (rs1 & ->).
  rewrite <- app_assoc. by eexists.
Qed.

End steps.

(** ** The organizer: preview mode *)

Section preview.

Import FileOrganizer.

Context (E : os_env).

Implicit Types (root : gmap string node) (st : state).

Lemma organize_loop_dry_run listing st :
  ∃ st', organize_loop E true listing st = Normal st' ∧
         fs st' = fs st ∧
         log st' = log st ++
                   (preview_record <$>
                    filter (λ name, skipped (fs st) name = false) listing).
Proof.
  revert st. induction listing as [|name rest IH]; intros st; simpl.
  { exists st. by rewrite app_nil_r. }
  rewrite process_item_dry_run.
  destruct (skipped (fs st) name) eqn:Hskip.
  - destruct (IH st) as (st' & -> & Hfs & Hlog). exists st'.
    repeat split; [done|].
    rewrite filter_cons_False by congruence. done.
  - destruct (IH (preview_item st name (category_of name) name))
      as (st' & -> & Hfs & Hlog).
    exists st'. repeat split; [done|].
    rewrite filter_cons_True by done.
    rewrite Hlog. simpl. by rewrite <- app_assoc.
Qed.

Lemma organize_dry_run self listing root :
  ∃ st, organize E self true listing root = Normal st ∧
        fs st = root ∧
        log st = [opening_record self true] ++
                 (preview_record <$>
                  filter (λ name, skipped root name = false) listing) ++
                 [summary_record true (total_moved (moved_files st))].
Proof.
  unfold organize.
  match goal with
  | |- context [organize_loop E true listing ?st0] =>
      destruct (organize_loop_dry_run listing st0) as (st & -> & Hfs & Hlog)
  end.
  eexists. split; [reflexivity|]. simpl in *. split; [done|].
  rewrite Hlog. reflexivity.
Qed.

(** C4: a run in preview mode returns normally and leaves the entries of the
    target directory exactly as they were: nothing is created, moved or
    renamed. *)
Theorem C4_dry_run_no_mutation self listing root :
  ∃ st, organize E self true listing root = Normal st ∧ fs st = root.
Proof.
  destruct (organize_dry_run self listing root) as (st & Hrun & Hfs & _).
  by exists st.
Qed.


End preview.


(** ** The organizer: construction *)

Section construction.

Import FileOrganizer.

(** C3, amended: construction raises [FileNotFoundError], with the message
    [Directory not found: <path>], when the resolved target path does not
    exist, raises [NotADirectoryError] when it exists and is not a directory,
    and returns the organizer of the resolved path when it is a directory. *)
Theorem C3_construction (E : os_env) (world : node) (directory : string) :
  match FS.lookup_path (resolve E directory) world with
  | None =>
      __init__ E world directory =
      inl (FileNotFoundError
             ("Directory not found: " +:+ FS.path_str (resolve E directory)))
  | Some (File _) =>
      __init__ E world directory =
      inl (NotADirectoryError
             ("Path is not a directory: " +:+
              FS.path_str (resolve E directory)))
  | Some (Dir _) =>
      __init__ E world directory =
      inr {| FileOrganizer.directory := resolve E directory |}
  end.
Proof.
  unfold __init__, _validate_directory, FS.path_exists, FS.is_dir. simpl.
  by destruct (FS.lookup_path (resolve E directory) world) as [[?|?]|].
Qed.

End construction.

(** Against C3 as stated: at a path that does not exist the exception raised
    is a [FileNotFoundError]; no exception of the program is called
    [DirectoryNotFoundError]. *)
Lemma C3_counterexample :
  FS.lookup_path (resolve Sample.posix "/home/user/missing") Sample.world
  = None ∧
  ∃ e, FileOrganizer.__init__ Sample.posix Sample.world "/home/user/missing"
       = inl e ∧
       exn_name e = "FileNotFoundError" ∧
       exn_name e ≠ "DirectoryNotFoundError".
Proof.
  split; [by vm_compute|].
  eexists. split; [vm_compute; reflexivity|]. by split.
Qed.

(** ** The organizer: apply mode *)

Section apply.

Import FileOrganizer.

Context (E : os_env).

Implicit Types (root : gmap string node) (st : state).

Lemma skipped_file st name data :
  fs st !! name = Some (File data) → Pathlib.startswith_dot name = false →
  skipped (fs st) name = false.
Proof.
  intros Hf Hdot. unfold skipped. by rewrite (is_dir_file _ _ data), Hdot.
Qed.


End apply.


(** ** The organizer: a whole run in apply mode *)

Section batch.

Import FileOrganizer.

Context (E : os_env).

Implicit Types (root : gmap string node) (st : state) (name : string).

Lemma organize_loop_app dry_run l1 l2 st :
  organize_loop E dry_run (l1 ++ l2) st =
  match organize_loop E dry_run l1 st with
  | Normal st1 => organize_loop E dry_run l2 st1
  | other => other
  end.
Proof.
  revert st. induction l1 as [|x l1 IH]; intros st; simpl; [done|].
  by destruct (process_item E dry_run st x).
Qed.

(** Only [mkdir] can make an item end the run. *)
Lemma process_item_returns st name :
  (∀ p, mkdir_fault E p = None) →
  ∃ st', process_item E false st name = Normal st'.
Proof.
  intros Hmk. destruct (skipped (fs st) name) eqn:Hskip.
  { exists st. by apply process_item_skipped. }
  pose proof (process_item_apply E st name Hskip) as Hstep.
  pose proof (ensure_category_dir_apply E st (category_of name)) as Hdir.
  destruct (ensure_category_dir E false st (category_of name))
    as [st1|e st1|].
  - destruct Hstep as (dest & _ & _ & ->). by eexists.
  - destruct Hdir as (_ & _ & Hf). rewrite Hmk in Hf. done.
  - done.
Qed.

Lemma organize_loop_returns listing st :
  (∀ p, mkdir_fault E p = None) →
  ∃ st', organize_loop E false listing st = Normal st'.
Proof.
  intros Hmk. revert st.
  induction listing as [|name rest IH]; intros st; simpl; [by eexists|].
  destruct (process_item_returns st name Hmk) as (st1 & ->). apply IH.
Qed.

(** What a step does to an entry [y] that is a regular file afterwards: it was
    that file before. *)
Lemma process_item_files st name st' y d :
  process_item E false st name = Normal st' →
  fs st' !! y = Some (File d) → fs st !! y = Some (File d).
Proof.
  destruct (skipped (fs st) name) eqn:Hskip.
  { rewrite process_item_skipped by done. by intros [= <-]. }
  pose proof (process_item_apply E st name Hskip) as Hstep.
  pose proof (ensure_category_dir_apply E st (category_of name)) as Hdir.
  destruct (ensure_category_dir E false st (category_of name))
    as [st1|e st1|]; [|by rewrite Hstep..].
  destruct Hstep as (dest & _ & _ & ->). intros [= <-].
  assert (fs st1 !! y = Some (File d) → fs st !! y = Some (File d)) as Hst1.
  { destruct Hdir as (_ & _ & [->|(Hnone & _ & ->)]); [done|]. simpl.
    destruct (decide (category_of name = y)) as [<-|Hne].
    - by rewrite lookup_insert_eq.
    - by rewrite lookup_insert_ne. }
  unfold move_item.
  destruct (shutil_move E (fs st1) name (category_of name) dest)
    as [e|root'] eqn:Hmove; simpl; [done|].
  apply shutil_move_inr in Hmove as (ch & ch' & Hcat & Hne & ->).
  destruct (decide (category_of name = y)) as [<-|Hne'].
  { by rewrite lookup_insert_eq. }
  rewrite lookup_insert_ne by done.
  destruct (decide (name = y)) as [<-|Hne''].
  { by rewrite lookup_delete_eq. }
  rewrite lookup_delete_ne by done. done.
Qed.

(** An item that is not skipped and whose step logs no error is no longer a
    regular file of the target directory. *)
Lemma process_item_moved st name st' d :
  skipped (fs st) name = false →
  process_item E false st name = Normal st' →
  Forall (λ r, r.1 ≠ ERROR) (log st') →
  fs st' !! name ≠ Some (File d).
Proof.
  intros Hskip.
  pose proof (process_item_apply E st name Hskip) as Hstep.
  destruct (ensure_category_dir E false st (category_of name))
    as [st1|e st1|]; [|by rewrite Hstep..].
  destruct Hstep as (dest & _ & _ & ->). intros [= <-] Hlog.
  destruct (move_item_log E st1 name (category_of name) dest)
    as (r & Hr & Herr).
  rewrite Hr in Hlog. apply Forall_app in Hlog as [_ Hlog].
  apply Forall_inv in Hlog.
  unfold move_item.
  destruct (shutil_move E (fs st1) name (category_of name) dest)
    as [e|root'] eqn:Hmove.
  { exfalso. apply Hlog, Herr. by eexists. }
  simpl. apply shutil_move_inr in Hmove as (ch & ch' & Hcat & Hne & ->).
  rewrite lookup_insert_ne by done. by rewrite lookup_delete_eq.
Qed.

(** After a run without errors, a regular file left in the target directory
    was there before, and is hidden if the listing had it. *)
Lemma organize_loop_clears listing st st' y d :
  organize_loop E false listing st = Normal st' →
  Forall (λ r, r.1 ≠ ERROR) (log st') →
  fs st' !! y = Some (File d) →
  fs st !! y = Some (File d) ∧
  (y ∈ listing → Pathlib.startswith_dot y = true).
Proof.
  revert st. induction listing as [|name rest IH]; intros st; simpl.
  { intros [= <-] _ Hy. split; [done|]. by intros ?%elem_of_nil. }
  destruct (process_item E false st name) as [st1|e st1|] eqn:Hstep;
    [|done..].
  intros Hloop Hlog Hy.
  destruct (IH st1 Hloop Hlog Hy) as [Hy1 Hrest].
  split; [by eapply process_item_files|].
  intros [->|Hin]%elem_of_cons; [|by auto].
  destruct (skipped (fs st) name) eqn:Hskip.
  - unfold skipped in Hskip. apply orb_true_iff in Hskip as [Hdir|]; [|done].
    apply is_dir_entry in Hdir as [ch Hch].
    apply (process_item_files _ _ _ _ _ Hstep) in Hy1. congruence.
  - exfalso. apply (process_item_moved st name st1 d Hskip Hstep); [|done].
    apply organize_loop_log in Hloop as (rs & Hrs).
    rewrite Hrs in Hlog. by apply Forall_app in Hlog as [? _].
Qed.

(** A listing of skipped items leaves the state as it is. *)
Lemma organize_loop_all_skipped dry_run listing st :
  (∀ name, name ∈ listing → skipped (fs st) name = true) →
  organize_loop E dry_run listing st = Normal st.
Proof.
  induction listing as [|name rest IH]; intros Hall; simpl; [done|].
  rewrite process_item_skipped by (apply Hall, list_elem_of_here).
  apply IH. intros y Hy. by apply Hall, list_elem_of_further.
Qed.

End batch.

(** ** The organizer: how often a name is recorded *)

Section counting.

Import FileOrganizer.

Context (E : os_env).

Implicit Types (root : gmap string node) (st : state) (name : string).
Implicit Types (m : gmap string (list string)).

Lemma append_moved_key category y m k :
  is_Some (append_moved category y m !! k) ↔ is_Some (m !! k).
Proof.
  unfold append_moved. rewrite lookup_alter. case_decide as Hk; [|done].
  subst k. by rewrite fmap_is_Some.
Qed.

Lemma append_moved_occurrences category y m x c :
  is_Some (m !! category) →
  occurrences x (append_moved category y m) c =
  occurrences x m c +
  (if bool_decide (c = category ∧ y = x) then 1 else 0).
Proof.
  intros [l Hl]. unfold occurrences, recorded, append_moved.
  rewrite lookup_alter. case_decide as Hc.
  - subst c. rewrite Hl. simpl. rewrite filter_app, length_app. f_equal.
    rewrite filter_cons, filter_nil.
    case_decide as Hy; case_bool_decide as Hb; try done.
    + exfalso. by apply Hb.
    + by destruct Hb.
  - rewrite bool_decide_eq_false_2; [lia|]. by intros [-> _].
Qed.

(** A step on [y] leaves a regular file with another name where it is. *)
Lemma process_item_keeps_file st y st' x d :
  y ≠ x →
  fs st !! x = Some (File d) →
  process_item E false st y = Normal st' →
  fs st' !! x = Some (File d).
Proof.
  intros Hne Hfile.
  destruct (skipped (fs st) y) eqn:Hskip.
  { rewrite process_item_skipped by done. by intros [= <-]. }
  pose proof (process_item_apply E st y Hskip) as Hstep.
  pose proof (ensure_category_dir_apply E st (category_of y)) as Hdir.
  destruct (ensure_category_dir E false st (category_of y))
    as [st1|e1 st1|]; [|by rewrite Hstep..].
  destruct Hstep as (dest & _ & _ & ->). intros [= <-].
  destruct Hdir as (_ & _ & Hst1).
  assert (fs st1 !! x = Some (File d)) as Hfile1.
  { destruct Hst1 as [->|(Hnone & _ & ->)]; [done|]. simpl.
    rewrite lookup_insert_ne; [done|]. intros Heq. congruence. }
  unfold move_item.
  destruct (shutil_move E (fs st1) y (category_of y) dest)
    as [e1|root'] eqn:Hmove; simpl; [done|].
  apply shutil_move_inr in Hmove as (ch & ch' & Hcat & Hyc & ->).
  rewrite lookup_insert_ne by (intros Heq; congruence).
  by rewrite lookup_delete_ne.
Qed.

(** The keys of [moved_files] stay, and a step without error records its item
    once, under its category, unless it skips it. *)
Lemma process_item_occurrences st y st' :
  (∀ name, is_Some (moved_files st !! category_of name)) →
  process_item E false st y = Normal st' →
  Forall (λ r, r.1 ≠ ERROR) (log st') →
  (∀ name, is_Some (moved_files st' !! category_of name)) ∧
  ∀ x c, occurrences x (moved_files st') c =
         occurrences x (moved_files st) c +
         (if bool_decide (c = category_of y ∧ y = x) && negb (skipped (fs st) y)
          then 1 else 0).
Proof.
  intros Hkeys.
  destruct (skipped (fs st) y) eqn:Hskip.
  { rewrite process_item_skipped by done. intros [= <-] _.
    split; [done|]. intros x c. rewrite andb_false_r. lia. }
  pose proof (process_item_apply E st y Hskip) as Hstep.
  pose proof (ensure_category_dir_apply E st (category_of y)) as Hdir.
  destruct (ensure_category_dir E false st (category_of y))
    as [st1|e1 st1|]; [|by rewrite Hstep..].
  destruct Hstep as (dest & _ & _ & ->). intros [= <-] Hlog.
  destruct Hdir as (_ & Hm & _).
  destruct (move_item_log E st1 y (category_of y) dest) as (r & Hr & Herr).
  rewrite Hr in Hlog. apply Forall_app in Hlog as [_ Hlog].
  apply Forall_inv in Hlog.
  unfold move_item.
  destruct (shutil_move E (fs st1) y (category_of y) dest)
    as [e1|root'] eqn:Hmove.
  { exfalso. apply Hlog, Herr. by eexists. }
  simpl. rewrite Hm. split.
  - intros name. by apply append_moved_key.
  - intros x c. rewrite andb_true_r. by apply append_moved_occurrences.
Qed.

(** Over a listing without repetition and a run without error: a name that
    the listing does not have is recorded as often as before, and a file of the
    directory that is not hidden is recorded once more, under its category. *)
Lemma organize_loop_occurrences listing st st' x c :
  (∀ name, is_Some (moved_files st !! category_of name)) →
  organize_loop E false listing st = Normal st' →
  Forall (λ r, r.1 ≠ ERROR) (log st') →
  NoDup listing →
  (x ∉ listing →
   occurrences x (moved_files st') c = occurrences x (moved_files st) c) ∧
  (x ∈ listing →
   ∀ d, fs st !! x = Some (File d) → Pathlib.startswith_dot x = false →
        occurrences x (moved_files st') c =
        occurrences x (moved_files st) c +
        (if bool_decide (c = category_of x) then 1 else 0)).
Proof.
  revert st. induction listing as [|y rest IH]; intros st Hkeys; simpl.
  { intros [= <-] _ _. split; [done|]. by intros ?%elem_of_nil. }
  destruct (process_item E false st y) as [st1|e1 st1|] eqn:Hstep;
    [|done..].
  intros Hloop Hlog [Hy Hnd]%NoDup_cons.
  assert (Forall (λ r, r.1 ≠ ERROR) (log st1)) as Hlog1.
  { destruct (organize_loop_log E _ _ _ Hloop) as (rs & Hrs).
    rewrite Hrs in Hlog. by apply Forall_app in Hlog as [? _]. }
  destruct (process_item_occurrences st y st1 Hkeys Hstep Hlog1)
    as [Hkeys1 Hocc].
  destruct (IH st1 Hkeys1 Hloop Hlog Hnd) as [IHout IHin].
  split.
  - intros Hx. apply not_elem_of_cons in Hx as [Hxy Hx].
    rewrite IHout, Hocc by done.
    rewrite bool_decide_eq_false_2; [simpl; lia|]. by intros [_ ->].
  - intros [->|Hx]%elem_of_cons d Hfile Hdot.
    + rewrite IHout, Hocc by done.
      rewrite (skipped_file st y d Hfile Hdot), andb_true_r. f_equal.
      by rewrite (bool_decide_ext _ (c = category_of y))
        by (split; [by intros [? _]|done]).
    + assert (y ≠ x) as Hne by (by intros ->).
      rewrite (IHin Hx d) by
        (by eauto using process_item_keeps_file).
      rewrite Hocc. rewrite (bool_decide_eq_false_2 (_ ∧ y = x)); [simpl; lia|].
      by intros [_ ?].
Qed.

End counting.

(** ** The organizer: running twice *)

Section twice.

Import FileOrganizer.

Context (E : os_env).

Implicit Types (root : gmap string node) (st : state) (name : string).

(** The keys of the result are the seven categories and ["other"]; at the
    start every key has the empty list. *)
Lemma moved_files_init_list :
  moved_files_init =
  list_to_map ((λ c, (c, [])) <$> categories).
Proof. by vm_compute. Qed.

Lemma moved_files_init_lookup category l :
  moved_files_init !! category = Some l → l = [].
Proof.
  rewrite moved_files_init_list. intros H%elem_of_list_to_map_2.
  by apply list_elem_of_fmap in H as (c & [= _ ->] & _).
Qed.

Lemma moved_files_init_keys category :
  category ∈ categories →
  moved_files_init !! category = Some [].
Proof.
  intros Hin. destruct (moved_files_init !! category) as [l|] eqn:Hl.
  - by rewrite (moved_files_init_lookup _ _ Hl).
  - exfalso. rewrite moved_files_init_list in Hl.
    apply not_elem_of_list_to_map_2 in Hl. apply Hl.
    rewrite <- list_fmap_compose. by rewrite list_fmap_id.
Qed.

Lemma is_listing_intro listing root :
  NoDup listing → list_to_set listing = dom root → is_listing listing root.
Proof.
  intros Hnd Hdom. split; [done|]. intros name.
  by rewrite <- elem_of_dom, <- Hdom, elem_of_list_to_set.
Qed.

Lemma occurrences_init x category :
  occurrences x moved_files_init category = 0.
Proof.
  unfold occurrences, recorded.
  destruct (moved_files_init !! category) as [l|] eqn:Hl; [|done].
  by apply moved_files_init_lookup in Hl as ->.
Qed.

(** C7, amended: when a run in apply mode returns without having logged an
    error, it has recorded every file of the target directory that is not
    hidden once, under its category, and every entry then left in the target
    directory is a directory (a category directory or one that was there
    before) or is hidden; a second run on that directory moves nothing, leaves
    it as it is and returns the result that maps the seven categories and
    ["other"] to the empty list. *)
Theorem C7_second_run_empty self listing1 root st1 listing2 :
  is_listing listing1 root →
  organize E self false listing1 root = Normal st1 →
  Forall (λ r, r.1 ≠ ERROR) (log st1) →
  is_listing listing2 (fs st1) →
  (∀ x d category,
     root !! x = Some (File d) → Pathlib.startswith_dot x = false →
     occurrences x (moved_files st1) category =
     if bool_decide (category = category_of x) then 1 else 0) ∧
  (∀ x n, fs st1 !! x = Some n →
          (∃ ch, n = Dir ch) ∨ Pathlib.startswith_dot x = true) ∧
  organize E self false listing2 (fs st1) =
  Normal {| fs := fs st1;
            moved_files := moved_files_init;
            log := [opening_record self false; summary_record false 0] |} ∧
  (∀ category, category ∈ categories →
               moved_files_init !! category = Some []).
Proof.
  intros [Hnd Hl1] Hrun Hlog [_ Hl2].
  unfold organize in Hrun.
  destruct (organize_loop E false listing1 (initial_state self false root))
    as [st|e st|] eqn:Hloop; [|done..].
  injection Hrun as <-. simpl in *.
  apply Forall_app in Hlog as [Hlog _].
  assert (∀ x n, fs st !! x = Some n →
                 (∃ ch, n = Dir ch) ∨ Pathlib.startswith_dot x = true)
    as Hleft.
  { intros x [d|ch] Hx; [|by eauto]. right.
    destruct (organize_loop_clears E _ _ _ x d Hloop Hlog Hx) as [Hx0 Hhid].
    apply Hhid, Hl1. by eexists. }
  split; [|split; [done|split; [|apply moved_files_init_keys]]].
  - intros x d category Hx Hdot.
    destruct (organize_loop_occurrences E listing1
                (initial_state self false root) st x category
                (λ name, _get_category_key (_get_extension name))
                Hloop Hlog Hnd) as [_ Hin].
    rewrite (Hin (proj2 (Hl1 x) (ex_intro _ _ Hx)) d Hx Hdot). simpl.
    by rewrite occurrences_init.
  - unfold organize.
    rewrite organize_loop_all_skipped; [done|].
    intros name [n Hn]%Hl2. simpl in *. unfold skipped.
    destruct (Hleft name n Hn) as [[ch ->]| ->].
    + rewrite (proj2 (is_dir_entry _ _)); [done|by eexists].
    + by rewrite orb_true_r.
Qed.

End twice.

(** For C7: a directory with two files; both are moved, and the run that
    follows finds two category directories. *)
Lemma C7_second_run_empty_witness :
  ∃ st1,
    FileOrganizer.organize Sample.posix Sample.organizer false
      ["a.jpg"; "notes.txt"]
      (<["a.jpg" := File "A"]> (<["notes.txt" := File "N"]> ∅))
    = FileOrganizer.Normal st1 ∧
    FileOrganizer.organize Sample.posix Sample.organizer false
      ["documents"; "images"] (FileOrganizer.fs st1) =
    FileOrganizer.Normal
      {| FileOrganizer.fs := FileOrganizer.fs st1;
         FileOrganizer.moved_files := FileOrganizer.moved_files_init;
         FileOrganizer.log :=
           [FileOrganizer.opening_record Sample.organizer false;
            FileOrganizer.summary_record false 0] |}.
Proof.
  eexists. split; [vm_compute; reflexivity|].
  refine (proj1 (proj2 (proj2 (C7_second_run_empty Sample.posix
                                 Sample.organizer
                          ["a.jpg"; "notes.txt"]
                          (<["a.jpg" := File "A"]>
                             (<["notes.txt" := File "N"]> ∅))
                          _ ["documents"; "images"] _ _ _ _)))).
  - apply is_listing_intro; [by apply (bool_decide_unpack _)|by vm_compute].
  - vm_compute. reflexivity.
  - by apply (bool_decide_unpack _).
  - apply is_listing_intro; [by apply (bool_decide_unpack _)|by vm_compute].
Defined.

(** Against C7 as stated: a directory that was in the target directory
    before the run, and is no category directory, is still there after it. *)
Lemma C7_counterexample :
  ∃ st1,
    FileOrganizer.organize Sample.posix Sample.organizer false
      ["a.jpg"; "notes.txt"; "projects"] Sample.mixed
    = FileOrganizer.Normal st1 ∧
    Forall (λ r, r.1 ≠ ERROR) (FileOrganizer.log st1) ∧
    FileOrganizer.fs st1 !! "projects" = Some (Dir ∅) ∧
    ("projects" ∉ FileOrganizer.categories) ∧
    Pathlib.startswith_dot "projects" = false.
Proof.
  eexists. split; [vm_compute; reflexivity|].
  split; [by apply (bool_decide_unpack _)|].
  split; [by vm_compute|]. split; [|done].
  by apply (bool_decide_unpack _).
Qed.

(** ** The organizer: a move that fails *)

Section failure.

Import FileOrganizer.

Context (E : os_env).

Implicit Types (root : gmap string node) (st : state) (name : string).

Lemma append_moved_other category y name m :
  y ≠ name →
  (∀ c l, m !! c = Some l → name ∉ l) →
  ∀ c l, append_moved category y m !! c = Some l → name ∉ l.
Proof.
  intros Hne Hm c l. unfold append_moved. rewrite lookup_alter.
  case_decide as Hc; [subst c|exact (Hm c l)].
  destruct (m !! category) as [l0|] eqn:Hl0; simpl; [|done].
  intros [= <-] [Hin|Heq%list_elem_of_singleton]%elem_of_app; [|done].
  by apply (Hm category l0).
Qed.

Section refused.

Context (name data : string) (e : exn).
Context (Hrefused : ∀ c d, move_fault E [name] [c; d] = Some e).

Lemma shutil_move_refused root category dest :
  shutil_move E root name category dest = inl e.
Proof. unfold shutil_move. by rewrite Hrefused. Qed.

(** The step of the refused item: the error is logged and nothing else of the
    result changes. *)
Lemma process_item_refused st st' :
  untouched name data st →
  Pathlib.startswith_dot name = false →
  process_item E false st name = Normal st' →
  untouched name data st' ∧
  moved_files st' = moved_files st ∧
  last (log st') =
  Some (ERROR, "Error moving " +:+ name +:+ ": " +:+ exn_str e).
Proof.
  intros [Hfile Hmoved] Hdot.
  pose proof (process_item_apply E st name
                (skipped_file _ _ _ Hfile Hdot)) as Hstep.
  pose proof (ensure_category_dir_apply E st (category_of name)) as Hdir.
  destruct (ensure_category_dir E false st (category_of name))
    as [st1|e1 st1|]; [|by rewrite Hstep..].
  destruct Hstep as (dest & _ & _ & ->). intros [= <-].
  unfold move_item, untouched. rewrite shutil_move_refused. simpl.
  destruct Hdir as (_ & Hm & Hst1). rewrite Hm.
  split; [|split; [done|by rewrite last_snoc]].
  split; [|exact Hmoved].
  destruct Hst1 as [->|(Hnone & _ & ->)]; [done|]. simpl.
  rewrite lookup_insert_ne; [done|]. intros Heq. congruence.
Qed.

(** The step of any other item leaves the refused file alone. *)
Lemma process_item_untouched st y st' :
  y ≠ name →
  untouched name data st →
  process_item E false st y = Normal st' →
  untouched name data st'.
Proof.
  intros Hne [Hfile Hmoved].
  destruct (skipped (fs st) y) eqn:Hskip.
  { rewrite process_item_skipped by done. by intros [= <-]. }
  pose proof (process_item_apply E st y Hskip) as Hstep.
  pose proof (ensure_category_dir_apply E st (category_of y)) as Hdir.
  destruct (ensure_category_dir E false st (category_of y))
    as [st1|e1 st1|]; [|by rewrite Hstep..].
  destruct Hstep as (dest & _ & _ & ->). intros [= <-].
  destruct Hdir as (_ & Hm & Hst1).
  assert (fs st1 !! name = Some (File data)) as Hfile1.
  { destruct Hst1 as [->|(Hnone & _ & ->)]; [done|]. simpl.
    rewrite lookup_insert_ne; [done|]. intros Heq. congruence. }
  unfold move_item.
  unfold untouched.
  destruct (shutil_move E (fs st1) y (category_of y) dest)
    as [e1|root'] eqn:Hmove; simpl; rewrite Hm.
  { done. }
  apply shutil_move_inr in Hmove as (ch & ch' & Hcat & Hyc & ->).
  split.
  - rewrite lookup_insert_ne by (intros Heq; congruence).
    by rewrite lookup_delete_ne.
  - by apply append_moved_other.
Qed.

Lemma organize_loop_untouched listing st st' :
  Pathlib.startswith_dot name = false →
  untouched name data st →
  organize_loop E false listing st = Normal st' →
  untouched name data st'.
Proof.
  intros Hdot. revert st.
  induction listing as [|y rest IH]; intros st Hst; simpl.
  { by intros [= <-]. }
  destruct (process_item E false st y) as [st1|e1 st1|] eqn:Hstep;
    [|done..].
  apply IH. destruct (decide (y = name)) as [->|Hne].
  - by destruct (process_item_refused st st1 Hst Hdot Hstep).
  - by apply (process_item_untouched st y).
Qed.

End refused.

(** C6: in apply mode, when the move of a file raises, the exception is caught
    and logged as an error, the dict of moved files is left as it was, the
    loop goes on with the items that follow, and the call returns its result,
    in which no list names the file; no failing move ends the run. *)
Theorem C6_move_failure_isolated self root name data e l1 l2 :
  (∀ p, mkdir_fault E p = None) →
  (∀ c d, move_fault E [name] [c; d] = Some e) →
  root !! name = Some (File data) →
  Pathlib.startswith_dot name = false →
  ∃ st1 st2 st',
    organize_loop E false l1 (initial_state self false root) = Normal st1 ∧
    process_item E false st1 name = Normal st2 ∧
    moved_files st2 = moved_files st1 ∧
    last (log st2) =
    Some (ERROR, "Error moving " +:+ name +:+ ": " +:+ exn_str e) ∧
    organize_loop E false (l1 ++ name :: l2) (initial_state self false root)
    = organize_loop E false l2 st2 ∧
    organize E self false (l1 ++ name :: l2) root = Normal st' ∧
    (∀ category l, moved_files st' !! category = Some l → name ∉ l).
Proof.
  intros Hmk Hrefused Hfile Hdot.
  assert (untouched name data (initial_state self false root)) as H0.
  { split; [done|]. intros c l Hl. simpl in Hl.
    apply moved_files_init_lookup in Hl as ->. apply not_elem_of_nil. }
  destruct (organize_loop_returns E l1 (initial_state self false root) Hmk)
    as (st1 & Hl1).
  pose proof (organize_loop_untouched name data e Hrefused _ _ _ Hdot H0 Hl1)
    as H1.
  destruct (process_item_returns E st1 name Hmk) as (st2 & Hstep).
  destruct (process_item_refused name data e Hrefused _ _ H1 Hdot Hstep)
    as (H2 & Hm2 & Hlast).
  destruct (organize_loop_returns E l2 st2 Hmk) as (st3 & Hl2).
  pose proof (organize_loop_untouched name data e Hrefused _ _ _ Hdot H2 Hl2)
    as [_ H3].
  assert (organize_loop E false (l1 ++ name :: l2)
            (initial_state self false root) = organize_loop E false l2 st2)
    as Hall.
  { rewrite organize_loop_app, Hl1. simpl. by rewrite Hstep. }
  exists st1, st2,
    (add_log (summary_record false (total_moved (moved_files st3))) st3).
  do 5 (split; [done|]). split.
  - unfold organize. by rewrite Hall, Hl2.
  - exact H3.
Qed.

End failure.

(** For C6: a directory of two files and a subdirectory, the move of
    [notes.txt] being refused. *)
Lemma C6_move_failure_isolated_witness :
  ∃ st',
    FileOrganizer.organize
      (Sample.refusing "notes.txt" (PermissionError "Permission denied"))
      Sample.organizer false (["a.jpg"] ++ "notes.txt" :: ["projects"])
      Sample.mixed = FileOrganizer.Normal st' ∧
    (∀ category l,
       FileOrganizer.moved_files st' !! category = Some l → "notes.txt" ∉ l).
Proof.
  destruct (C6_move_failure_isolated
              (Sample.refusing "notes.txt"
                 (PermissionError "Permission denied"))
              Sample.organizer Sample.mixed "notes.txt" "N"
              (PermissionError "Permission denied") ["a.jpg"] ["projects"])
    as (st1 & st2 & st' & _ & _ & _ & _ & _ & Hrun & Hnot).
  - reflexivity.
  - reflexivity.
  - reflexivity.
  - reflexivity.
  - exists st'. by split.
Defined.

(** ** Directory trees: what creating directories and writing a file keep *)

Section trees.

Implicit Types (p q : FS.path) (n : node).

(** Creating directories changes no regular file. *)
Lemma mkdir_parents_file p n n' q d :
  FS.mkdir_parents p n = inr n' →
  FS.lookup_path q n = Some (File d) →
  FS.lookup_path q n' = Some (File d).
Proof.
  revert n n' q. induction p as [|x p IH]; intros [data|ch] n' q; simpl;
    try done.
  { by intros [= <-]. }
  destruct (FS.mkdir_parents p (default (Dir ∅) (ch !! x))) as [e|c] eqn:Hc;
    [done|].
  intros [= <-]. destruct q as [|y q]; simpl; [done|].
  destruct (decide (x = y)) as [<-|Hne].
  - rewrite lookup_insert_eq.
    destruct (ch !! x) as [c0|] eqn:Hx; [|done]. simpl in Hc.
    by apply IH.
  - by rewrite lookup_insert_ne.
Qed.

(** Writing the file at [p] changes no regular file at another path. *)
Lemma write_file_other p data n n' q d :
  FS.write_file p data n = inr n' →
  q ≠ p →
  FS.lookup_path q n = Some (File d) →
  FS.lookup_path q n' = Some (File d).
Proof.
  revert n n' q. induction p as [|x p IH]; intros [data0|ch] n' q; simpl;
    try done.
  { intros [= <-] Hne. by destruct q. }
  intros Hw Hne. destruct q as [|y q]; simpl; [done|].
  destruct (decide (x = y)) as [<-|Hxy].
  - destruct (ch !! x) as [c|] eqn:Hx; [|done].
    assert (∃ c', FS.write_file p data c = inr c' ∧
                  n' = Dir (<[x := c']> ch)) as (c' & Hc' & ->).
    { destruct p; destruct (FS.write_file _ data c) as [e|c'];
        try done; injection Hw as <-; by eexists. }
    simpl. rewrite lookup_insert_eq. apply IH; [done|]. congruence.
  - assert (∃ c', n' = Dir (<[x := c']> ch)) as (c' & ->).
    { destruct p, (ch !! x) as [c|]; try done;
        try (destruct (FS.write_file _ data c) as [e|c']; [done|]);
        injection Hw as <-; by eexists. }
    simpl. by rewrite lookup_insert_ne.
Qed.

(** After a write, the file at [p] holds what was written. *)
Lemma write_file_same p data n n' :
  FS.write_file p data n = inr n' →
  FS.lookup_path p n' = Some (File data).
Proof.
  revert n n'. induction p as [|x p IH]; intros [data0|ch] n'; simpl;
    try done.
  { by intros [= <-]. }
  intros Hw.
  destruct (ch !! x) as [c|] eqn:Hx.
  - assert (∃ c', FS.write_file p data c = inr c' ∧
                  n' = Dir (<[x := c']> ch)) as (c' & Hc' & ->).
    { destruct p; destruct (FS.write_file _ data c) as [e|c'];
        try done; injection Hw as <-; by eexists. }
    simpl. rewrite lookup_insert_eq. by apply (IH c).
  - destruct p; [|done]. injection Hw as <-. simpl.
    by rewrite lookup_insert_eq.
Qed.

(** Neither operation removes a regular file. *)
Lemma mkdir_parents_is_file p n n' q :
  FS.mkdir_parents p n = inr n' →
  FS.is_file q n = true → FS.is_file q n' = true.
Proof.
  intros Hm. unfold FS.is_file.
  destruct (FS.lookup_path q n) as [[d|ch]|] eqn:Hq; try done.
  by rewrite (mkdir_parents_file _ _ _ _ _ Hm Hq).
Qed.

Lemma write_file_is_file p data n n' q :
  FS.write_file p data n = inr n' →
  FS.is_file q n = true → FS.is_file q n' = true.
Proof.
  intros Hw. unfold FS.is_file.
  destruct (decide (q = p)) as [->|Hne].
  { by rewrite (write_file_same _ _ _ _ Hw). }
  destruct (FS.lookup_path q n) as [[d|ch]|] eqn:Hq; try done.
  by rewrite (write_file_other _ _ _ _ _ _ Hw Hne Hq).
Qed.

End trees.

(** ** The PDF merger *)

Section merger.

Import PDFMerger.

Context (E : os_env) (L : pypdf).

(** C8: [merge] with [delete_originals = True] removes no file: every regular
    file there before the call is there after it, and the call returns, leaves
    the merger and leaves the file system as the same call with
    [delete_originals = False] does; the one difference is the warning logged
    after a successful merge. *)
Theorem C8_delete_originals_stub (self : t L) (world : node)
  (output_path : option string) :
  let kept := merge E L self world output_path false in
  let deleting := merge E L self world output_path true in
  ret deleting = ret kept ∧
  self' deleting = self' kept ∧
  world' deleting = world' kept ∧
  log deleting =
  log kept ++
  (if ret kept is inr _
   then [(WARNING,
          "Deleting original files is not implemented in this example")]
   else []) ∧
  (∀ q, FS.is_file q world = true → FS.is_file q (world' deleting) = true).
Proof.
  unfold merge.
  set (self1 := match output_path with
                | Some s => if Pathlib.truthy s then _ else self
                | None => self
                end).
  set (out := PDFMerger.output_path self1).
  destruct (match mkdir_fault E (FS.parent out) with
            | Some e => inl e
            | None => FS.mkdir_parents (FS.parent out) world
            end) as [e|world1] eqn:Hmk; simpl.
  { repeat split; auto. }
  assert (∀ q, FS.is_file q world = true → FS.is_file q world1 = true) as H1.
  { intros q. revert Hmk. destruct (mkdir_fault E (FS.parent out)); [done|].
    intros Hmk. by apply (mkdir_parents_is_file _ _ _ _ Hmk). }
  destruct (match open_fault E out with
            | Some e => inl e
            | None => FS.write_file out "" world1
            end) as [e|world2] eqn:Hopen; simpl.
  { repeat split; auto. }
  assert (∀ q, FS.is_file q world1 = true → FS.is_file q world2 = true) as H2.
  { intros q. revert Hopen. destruct (open_fault E out); [done|].
    intros Hopen. by apply (write_file_is_file _ _ _ _ _ Hopen). }
  destruct (PdfMerger_write L (merger self1)) as [e|data]; simpl.
  { repeat split; auto. }
  destruct (FS.write_file out data world2) as [e|world3] eqn:Hw; simpl.
  { repeat split; auto. }
  repeat split; try done.
  intros q Hq. apply (write_file_is_file _ _ _ _ _ Hw). by auto.
Qed.

End merger.

(** For C8: two added files; both are there after
    [merge(delete_originals=True)]. *)
Lemma C8_delete_originals_stub_witness :
  let r := PDFMerger.merge Sample.posix Sample.concat_pdf Sample.both_added
             Sample.docs None true in
  PDFMerger.ret r = inr "/out/all.pdf" ∧
  FS.is_file ["docs"; "a.pdf"] (PDFMerger.world' r) = true ∧
  FS.is_file ["docs"; "b.pdf"] (PDFMerger.world' r) = true ∧
  FS.lookup_path ["out"; "all.pdf"] (PDFMerger.world' r) = Some (File "AB").
Proof.
  pose proof (C8_delete_originals_stub Sample.posix Sample.concat_pdf
                Sample.both_added Sample.docs None) as (_ & _ & _ & _ & Hkeep).
  split; [by vm_compute|]. split; [|split].
  - apply Hkeep. by vm_compute.
  - apply Hkeep. by vm_compute.
  - by vm_compute.
Defined.

(** ** The image resizer *)

Section resizer.

Import ImageResizer.

Context (E : os_env) (L : pillow).

Implicit Types (self : t) (world : node) (p q : FS.path).

Lemma name_snoc p (x : string) : FS.name (p ++ [x]) = x.
Proof. unfold FS.name. apply last_last. Qed.

(** The file name of the output is the stem of the input, [_resized] and an
    extension. *)
Lemma _get_output_path_shape self input_path output_dir :
  ∃ ext, _get_output_path self input_path output_dir =
         output_dir ++
         [Pathlib.stem (FS.name input_path) +:+ "_resized" +:+ ext].
Proof. unfold _get_output_path. by eexists. Qed.

(** The output path is never the input path: a suffix is empty or starts with
    a dot, so no name ends in [_resized] followed by its own suffix. *)
Lemma _get_output_path_fresh self input_path output_dir :
  _get_output_path self input_path output_dir ≠ input_path.
Proof.
  destruct (_get_output_path_shape self input_path output_dir)
    as (ext & ->).
  intros Heq. apply (f_equal FS.name) in Heq. rewrite name_snoc in Heq.
  rewrite <- (stem_suffix (FS.name input_path)) in Heq at 2.
  apply (inj (String.app _)) in Heq.
  destruct (suffix_dot (FS.name input_path)) as [Hs|[r Hs]];
    rewrite Hs in Heq; discriminate Heq.
Qed.

(** [save] changes no regular file but the one it writes. *)
Lemma save_other img out format save_kwargs world q d :
  q ≠ out →
  FS.lookup_path q world = Some (File d) →
  match save E L img out format save_kwargs world with
  | inl (_, w) | inr w => FS.lookup_path q w = Some (File d)
  end.
Proof.
  intros Hne Hq. unfold save.
  destruct (open_fault E out); [done|].
  destruct (FS.write_file out "" world) as [e|world1] eqn:H1; [done|].
  pose proof (write_file_other _ _ _ _ _ _ H1 Hne Hq) as Hq1.
  destruct (Image_save L img format save_kwargs) as [e|data].
  { by destruct (FS.path_exists out world). }
  destruct (FS.write_file out data world1) as [e|world2] eqn:H2; [done|].
  by apply (write_file_other _ _ _ _ _ _ H2 Hne).
Qed.

Lemma save_written img out format save_kwargs world world2 :
  save E L img out format save_kwargs world = inr world2 →
  FS.is_file out world2 = true.
Proof.
  unfold save.
  destruct (open_fault E out); [done|].
  destruct (FS.write_file out "" world) as [e|world1]; [done|].
  destruct (Image_save L img format save_kwargs) as [e|data]; [done|].
  destruct (FS.write_file out data world1) as [e|w] eqn:H2; [done|].
  intros [= <-]. unfold FS.is_file.
  by rewrite (write_file_same _ _ _ _ H2).
Qed.

(** Every regular file that is not at the output path is after the call what
    it was before. *)
Lemma resize_image_other self world input_path size width height scale
  maintain_aspect_ratio quality q d :
  q ≠ _get_output_path self (resolve E input_path)
        (output_dir_of E self (resolve E input_path)) →
  FS.lookup_path q world = Some (File d) →
  FS.lookup_path q
    (world' (resize_image E L self world input_path size width height scale
               maintain_aspect_ratio quality)) = Some (File d).
Proof.
  intros Hne Hq. unfold resize_image.
  destruct (FS.path_exists (resolve E input_path) world); [|done].
  unfold _validate_output_dir. simpl.
  destruct (mkdir_fault E _); [done|].
  destruct (FS.mkdir_parents _ world) as [e|world1] eqn:Hmk; [done|].
  pose proof (mkdir_parents_file _ _ _ _ _ Hmk Hq) as Hq1.
  destruct (read_file E _ world1) as [e|data]; [done|].
  destruct (Image_open L data) as [e|img]; [done|].
  destruct (new_size L _ size width height scale) as [e|sz]; [done|].
  destruct (Image_resize L _ sz) as [e|resized]; [done|].
  match goal with
  | |- context [save E L resized ?out ?f ?kw world1] =>
      pose proof (save_other resized out f kw world1 q d Hne Hq1) as Hs;
      destruct (save E L resized out f kw world1) as [[e w]|w]
  end; done.
Qed.

(** C9: [resize_image] on an input that is a regular file leaves the bytes of
    that file as they are. What it writes goes to
    [output_dir / (stem + "_resized" + ext)], a path that is never the input
    path; every other regular file is kept, and a path the call returns is that
    output path, then a regular file. *)
Theorem C9_input_not_mutated self world input_path size width height scale
  maintain_aspect_ratio quality data :
  let input := resolve E input_path in
  let out := _get_output_path self input (output_dir_of E self input) in
  let r := resize_image E L self world input_path size width height scale
             maintain_aspect_ratio quality in
  FS.lookup_path input world = Some (File data) →
  FS.lookup_path input (world' r) = Some (File data) ∧
  out ≠ input ∧
  (∃ ext, out = output_dir_of E self input ++
                [Pathlib.stem (FS.name input) +:+ "_resized" +:+ ext]) ∧
  (∀ q d, q ≠ out → FS.lookup_path q world = Some (File d) →
          FS.lookup_path q (world' r) = Some (File d)) ∧
  (∀ p, ret r = inr p → p = out ∧ FS.is_file out (world' r) = true).
Proof.
  intros input out r Hin.
  assert (out ≠ input) as Hfresh by apply _get_output_path_fresh.
  split; [|split; [done|split; [|split]]].
  - apply resize_image_other; [|done]. intros Heq. by apply Hfresh.
  - apply _get_output_path_shape.
  - intros q d Hq Hd. by apply resize_image_other.
  - intros p. unfold r, resize_image. fold input.
    destruct (FS.path_exists input world); [|done].
    unfold _validate_output_dir. simpl.
    destruct (mkdir_fault E _); [done|].
    destruct (FS.mkdir_parents _ world) as [e|world1]; [done|].
    destruct (read_file E _ world1) as [e|bytes]; [done|].
    destruct (Image_open L bytes) as [e|img]; [done|].
    destruct (new_size L _ size width height scale) as [e|sz]; [done|].
    destruct (Image_resize L _ sz) as [e|resized]; [done|].
    match goal with
    | |- context [save E L resized ?o ?f ?kw world1] =>
        pose proof (save_written resized o f kw world1) as Hs;
        destruct (save E L resized o f kw world1) as [[e w]|w]
    end; [done|].
    simpl. intros [= <-]. split; [done|]. by apply Hs.
Qed.

(** C10: [maintain_aspect_ratio] is never read: two calls of [resize_image]
    that differ in this flag only return the same path or raise the same
    exception, leave the same file system and log the same records. *)
Theorem C10_maintain_aspect_ratio_unused self world input_path size width
  height scale quality (flag1 flag2 : bool) :
  resize_image E L self world input_path size width height scale flag1 quality
  = resize_image E L self world input_path size width height scale flag2
      quality.
Proof. reflexivity. Qed.

End resizer.

(** For C9: [/pics/cat.png] resized to width 2; the copy is
    [/pics/resized/cat_resized.png] and [cat.png] holds what it held. *)
Lemma C9_input_not_mutated_witness :
  let r := ImageResizer.resize_image Sample.posix Sample.plain_pillow
             (ImageResizer.__init__ None None) Sample.pics "/pics/cat.png"
             None (Some 2%Z) None None true None in
  ImageResizer.ret r = inr ["pics"; "resized"; "cat_resized.png"] ∧
  FS.lookup_path ["pics"; "cat.png"] (ImageResizer.world' r)
  = Some (File "CAT").
Proof.
  split; [by vm_compute|].
  assert (FS.lookup_path (resolve Sample.posix "/pics/cat.png") Sample.pics
          = Some (File "CAT")) as Hin by (by vm_compute).
  exact (proj1 (C9_input_not_mutated Sample.posix Sample.plain_pillow
                  (ImageResizer.__init__ None None) Sample.pics
                  "/pics/cat.png" None (Some 2%Z) None None true None "CAT"
                  Hin)).
Defined.

(** ** Runs on small directories *)

Section scenarios.

Import FileOrganizer.

(** Seven files are sorted into five new directories, which are all the
    target directory then holds. *)
Example organize_seven :
  ∃ st,
    organize Sample.posix Sample.organizer false
      ["a.jpg"; "b.JPG"; "report.pdf"; "notes.txt"; "archive.zip";
       "script.py"; "README"] Sample.seven = Normal st ∧
    recorded (moved_files st) "images" = ["a.jpg"; "b.JPG"] ∧
    recorded (moved_files st) "documents" = ["report.pdf"; "notes.txt"] ∧
    recorded (moved_files st) "archives" = ["archive.zip"] ∧
    recorded (moved_files st) "code" = ["script.py"] ∧
    recorded (moved_files st) "other" = ["README"] ∧
    dom (fs st) = {["images"; "documents"; "archives"; "code"; "other"]} ∧
    last (log st) = Some (INFO, "Organization complete. Moved 7 files.").
Proof.
  eexists. split; [vm_compute; reflexivity|].
  repeat split; by vm_compute.
Qed.

(** An empty directory: every key has the empty list and nothing changes. *)
Example organize_empty dry_run :
  organize Sample.posix Sample.organizer dry_run [] ∅ =
  Normal {| fs := ∅; moved_files := moved_files_init;
            log := [opening_record Sample.organizer dry_run;
                    summary_record dry_run 0] |}.
Proof. by destruct dry_run. Qed.

(** The extension is compared in lower case, and only the last suffix
    counts. *)
Example category_of_names :
  category_of "b.JPG" = "images" ∧ category_of "backup.tar.gz" = "archives" ∧
  category_of "README" = "other" ∧ category_of "trailing." = "other".
Proof. by vm_compute. Qed.

(** A regular file called [images] stands where the category directory
    would be: the move of [a.jpg] raises, the error is logged, and the run
    goes on to move [images] itself to [other]. *)
Example organize_category_name_taken :
  ∃ st,
    organize Sample.posix Sample.organizer false ["a.jpg"; "images"]
      (<["a.jpg" := File "A"]> (<["images" := File "I"]> ∅)) = Normal st ∧
    log st =
    [(INFO, "Organizing files in: /home/user/inbox");
     (ERROR, "Error moving a.jpg: Not a directory");
     (INFO, "Created directory: other");
     (INFO, "Moved: images -> other/images");
     (INFO, "Organization complete. Moved 1 files.")] ∧
    fs st !! "a.jpg" = Some (File "A") ∧
    recorded (moved_files st) "images" = [].
Proof.
  eexists. split; [vm_compute; reflexivity|].
  repeat split; by vm_compute.
Qed.

End scenarios.
